(** * scopeview: UDP MJPEG client

    A shallow embedding of [src/python/scopeview.py]: the datagram parser
    [parse_mjpeg_packet], the frame reassembler [process_fragment], the two
    branches of the receive loop of [main] that touch the reassembly state,
    and the event channel ([build_event_request], [parse_event_packet], one
    iteration of [event_listener]).

    Conventions.
    - Python [bytes]/[bytearray] values are [list byte]; Python integers are
      [Z]; a dict entry holding [None] or a value is an [option].
    - The module-level variables of the main thread ([current_frame], the
      three statistics counters) live in the record [World], which is
      threaded through a state monad [M].  The only caller of
      [process_fragment] passes the module-level dict [current_frame], so
      the [frame_state] argument is the [current_frame] field of the world.
    - [time.time()] is a read of the field [clock] at position [ticks]; every
      call consumes one reading.  Timestamps are IEEE binary64 numbers, the
      kernel's primitive floats, with their subtraction and comparison. *)

From Stdlib Require Import ZArith List Bool Lia.
From Stdlib Require Import Floats.PrimFloat.
From Stdlib Require Import Strings.Byte.
Import ListNotations.

Local Open Scope Z_scope.

(* ------------------------------------------------------------------ *)
(** ** Bytes *)

Definition bytes := list byte.

Definition byte_val (b : byte) : Z := Z.of_N (Byte.to_N b).

(** [int.from_bytes(bs, "little")] *)
Fixpoint int_from_bytes_little (bs : bytes) : Z :=
  match bs with
  | [] => 0
  | b :: rest => byte_val b + 256 * int_from_bytes_little rest
  end.

(** [data[lo:hi]] for [0 <= lo <= hi]; Python clips a slice at the end of
    the sequence, and so do [skipn] and [firstn]. *)
Definition slice (lo hi : nat) (d : bytes) : bytes :=
  firstn (hi - lo) (skipn lo d).

(** [data[i]] at a position the caller has checked to be in range. *)
Definition index (d : bytes) (i : nat) : Z := byte_val (nth i d x00).

Definition bytes_eqb (a b : bytes) : bool :=
  if list_eq_dec Byte.byte_eq_dec a b then true else false.

Definition len (d : bytes) : Z := Z.of_nat (length d).

(* ------------------------------------------------------------------ *)
(** ** Protocol constants *)

Definition FRAME_TIMEOUT : float := 1.0%float.

(** [b"SETCMD"] and [b"RETCMD"] *)
Definition EVENT_REQUEST_PREFIX : bytes := [x53; x45; x54; x43; x4d; x44].
Definition EVENT_RESPONSE_PREFIX : bytes := [x52; x45; x54; x43; x4d; x44].

Definition EVENT_REQUEST_TAIL : bytes :=
  [x00; x00; x90; x00; x04; x00; x00; x00; x00; x00].
Definition EVENT_RESPONSE_MIDDLE : bytes :=
  [x00; x00; x90; x00; x04; x00].

(* ------------------------------------------------------------------ *)
(** ** Data model *)

(** The dict returned by [parse_mjpeg_packet]; the fields are its keys
    ["flag"], ["id"], ["size"], ["frag_index"] and ["data"]. *)
Record Fragment := mkFragment {
  flag : Z;
  frame_id : Z;
  frame_size : Z;
  frag_index : Z;
  data : bytes
}.

(** The dict [current_frame]; the fields are its keys ["id"], ["size"],
    ["buffer"], ["expected_frag"] and ["start_time"]. *)
Record FrameState := mkFrameState {
  st_id : option Z;
  st_size : option Z;
  buffer : bytes;
  expected_frag : Z;
  start_time : option float
}.

Record World := mkWorld {
  current_frame : FrameState;
  frames_decoded : Z;
  frames_dropped : Z;
  fragments_received : Z;
  clock : nat -> float;
  ticks : nat
}.

(** The module-level initial values. *)
Definition initial_frame : FrameState :=
  {| st_id := None; st_size := None; buffer := [];
     expected_frag := 0; start_time := None |}.

Definition initial_world (c : nat -> float) : World :=
  {| current_frame := initial_frame;
     frames_decoded := 0; frames_dropped := 0; fragments_received := 0;
     clock := c; ticks := 0%nat |}.

(* ------------------------------------------------------------------ *)
(** ** The state monad of the main thread *)

Definition M (A : Type) : Type := World -> A * World.

Definition ret {A} (a : A) : M A := fun w => (a, w).

Definition bind {A B} (c : M A) (k : A -> M B) : M B :=
  fun w => let (a, w') := c w in k a w'.

Declare Scope m_scope.
Delimit Scope m_scope with m.
Notation "x <- c ;; k" := (bind c (fun x => k))
  (at level 61, c at next level, right associativity) : m_scope.
Notation "c ;; k" := (bind c (fun _ => k))
  (at level 61, right associativity) : m_scope.
Local Open Scope m_scope.

(** [time.time()] *)
Definition time_time : M float :=
  fun w => (clock w (ticks w),
            {| current_frame := current_frame w;
               frames_decoded := frames_decoded w;
               frames_dropped := frames_dropped w;
               fragments_received := fragments_received w;
               clock := clock w; ticks := S (ticks w) |}).

Definition get_frame_state : M FrameState :=
  fun w => (current_frame w, w).

Definition set_frame_state (fs : FrameState) : M unit :=
  fun w => (tt,
            {| current_frame := fs;
               frames_decoded := frames_decoded w;
               frames_dropped := frames_dropped w;
               fragments_received := fragments_received w;
               clock := clock w; ticks := ticks w |}).

(** [frames_dropped += 1] *)
Definition count_drop : M unit :=
  fun w => (tt,
            {| current_frame := current_frame w;
               frames_decoded := frames_decoded w;
               frames_dropped := frames_dropped w + 1;
               fragments_received := fragments_received w;
               clock := clock w; ticks := ticks w |}).

(** [frames_decoded += 1] *)
Definition count_decoded : M unit :=
  fun w => (tt,
            {| current_frame := current_frame w;
               frames_decoded := frames_decoded w + 1;
               frames_dropped := frames_dropped w;
               fragments_received := fragments_received w;
               clock := clock w; ticks := ticks w |}).

(** [fragments_received += 1] *)
Definition count_received : M unit :=
  fun w => (tt,
            {| current_frame := current_frame w;
               frames_decoded := frames_decoded w;
               frames_dropped := frames_dropped w;
               fragments_received := fragments_received w + 1;
               clock := clock w; ticks := ticks w |}).

(* ------------------------------------------------------------------ *)
(** ** [parse_mjpeg_packet] *)

Definition parse_mjpeg_packet (d : bytes) : option Fragment :=
  if len d <? 24 then None
  else
    let header := slice 0 24 d in
    let payload := skipn 24 d in
    if negb (index header 0 =? 0x66) || negb (index header 2 =? 0x01)
    then None
    else
      let frame_flag := index header 1 in
      let frame_id := index header 3 in
      let frame_size := int_from_bytes_little (slice 4 8 header) in
      let frag_index := int_from_bytes_little (slice 12 14 header) in
      let frag_size := int_from_bytes_little (slice 14 16 header) in
      if negb (len payload =? frag_size) then None
      else Some {| flag := frame_flag;
                   frame_id := frame_id;
                   frame_size := frame_size;
                   frag_index := frag_index;
                   data := payload |}.

(* ------------------------------------------------------------------ *)
(** ** [process_fragment] *)

(** [a > b] on doubles. *)
Definition gtb (a b : float) : bool := PrimFloat.ltb b a.

Arguments gtb : simpl never.

(** [len(frame_state["buffer"]) == frame_state["size"]]: an integer is never
    equal to [None]. *)
Definition len_eq_size (b : bytes) (s : option Z) : bool :=
  match s with
  | Some n => len b =? n
  | None => false
  end.

(** The three assignments that every abandoning or completing path of the
    source repeats: ["buffer"] becomes empty, ["expected_frag"] 0 and
    ["start_time"] [None]; ["id"] and ["size"] are left as they are. *)
Definition reset_frame (fs : FrameState) : FrameState :=
  {| st_id := st_id fs; st_size := st_size fs; buffer := [];
     expected_frag := 0; start_time := None |}.

Definition reset_state : M unit :=
  fs <- get_frame_state ;; set_frame_state (reset_frame fs).

Definition process_fragment (fragment : Fragment) : M (option bytes) :=
  let flag := flag fragment in
  let frag_index := frag_index fragment in
  (if flag =? 1 then
     now <- time_time ;;
     set_frame_state {| st_id := Some (frame_id fragment);
                        st_size := Some (frame_size fragment);
                        buffer := [];
                        expected_frag := 0;
                        start_time := Some now |}
   else ret tt) ;;
  fs <- get_frame_state ;;
  expired <- match start_time fs with
             | Some t0 => now <- time_time ;;
                          ret (gtb (now - t0)%float FRAME_TIMEOUT)
             | None => ret false
             end ;;
  if expired then
    reset_state ;; count_drop ;; ret None
  else if negb (frag_index =? expected_frag fs) then
    reset_state ;; count_drop ;; ret None
  else
    set_frame_state {| st_id := st_id fs;
                       st_size := st_size fs;
                       buffer := buffer fs ++ data fragment;
                       expected_frag := expected_frag fs + 1;
                       start_time := start_time fs |} ;;
    if flag =? 2 then
      fs' <- get_frame_state ;;
      if len_eq_size (buffer fs') (st_size fs') then
        let jpeg := buffer fs' in
        reset_state ;; ret (Some jpeg)
      else
        reset_state ;; count_drop ;; ret None
    else ret None.

(** Fragments handed to the reassembler one after the other. *)
Fixpoint process_fragments (fs : list Fragment) : M (list (option bytes)) :=
  match fs with
  | [] => ret []
  | f :: rest =>
      r <- process_fragment f ;;
      rs <- process_fragments rest ;;
      ret (r :: rs)
  end.

(* ------------------------------------------------------------------ *)
(** ** The receive loop of [main]

    One iteration of the loop body, for the two outcomes of
    [sock.recvfrom]: a datagram, or [socket.timeout].  Decoding, display,
    the key handling and the file are external; [imdecode] says whether
    [cv2.imdecode] returns an image for the given bytes.  The value returned
    is the frame that reaches the sink, if any. *)

Definition is_truthy (b : bytes) : bool :=
  match b with
  | [] => false
  | _ :: _ => true
  end.

Definition on_datagram (save_mjpeg : bool) (imdecode : bytes -> bool)
    (d : bytes) : M (option bytes) :=
  if negb (is_truthy d) then ret None
  else
    count_received ;;
    match parse_mjpeg_packet d with
    | None => ret None
    | Some packet =>
        jpeg_bytes <- process_fragment packet ;;
        match jpeg_bytes with
        | Some jpeg =>
            if is_truthy jpeg then
              count_decoded ;;
              if save_mjpeg then ret (Some jpeg)
              else if imdecode jpeg then ret (Some jpeg)
              else count_drop ;; ret None
            else ret None
        | None => ret None
        end
    end.

Definition on_socket_timeout : M unit :=
  fs <- get_frame_state ;;
  match start_time fs with
  | Some t0 =>
      now <- time_time ;;
      if gtb (now - t0)%float FRAME_TIMEOUT then reset_state ;; count_drop
      else ret tt
  | None => ret tt
  end.

(* ------------------------------------------------------------------ *)
(** ** The event channel

    The module-level variables of the event thread: the baseline
    [_last_server_event_counter], the request counter
    [_event_request_counter] and the flag of [event_signal]. *)

Record EventState := mkEventState {
  _last_server_event_counter : option Z;
  _event_request_counter : Z;
  event_signal : bool
}.

Definition initial_events : EventState :=
  {| _last_server_event_counter := None;
     _event_request_counter := 0;
     event_signal := false |}.

Definition byte_of_Z (z : Z) : byte :=
  match Byte.of_N (Z.to_N z) with
  | Some b => b
  | None => x00
  end.

(** [cnt.to_bytes(2, "little")] for [0 <= cnt < 65536]. *)
Definition to_bytes_2_little (cnt : Z) : bytes :=
  [byte_of_Z (cnt mod 256); byte_of_Z ((cnt / 256) mod 256)].

Definition build_event_request (s : EventState) : (bytes * Z) * EventState :=
  let cnt := _event_request_counter s in
  let s' := {| _last_server_event_counter := _last_server_event_counter s;
               _event_request_counter :=
                 Z.land (_event_request_counter s + 1) 0xFFFF;
               event_signal := event_signal s |} in
  let packet := EVENT_REQUEST_PREFIX ++ to_bytes_2_little cnt
                  ++ EVENT_REQUEST_TAIL in
  ((packet, cnt), s').

(** The baseline is the only variable [parse_event_packet] reads or
    writes, so it is passed in and out. *)
Definition parse_event_packet (d : bytes) (expected_request_counter : Z)
    (last : option Z) : bool * option Z :=
  if negb (len d =? 20) then (false, last)
  else if negb (bytes_eqb (slice 0 6 d) EVENT_RESPONSE_PREFIX)
  then (false, last)
  else
    let resp_request_counter := int_from_bytes_little (slice 6 8 d) in
    if negb (resp_request_counter =? expected_request_counter)
    then (false, last)
    else if negb (bytes_eqb (slice 8 14 d) EVENT_RESPONSE_MIDDLE)
    then (false, last)
    else
      let server_event_counter := int_from_bytes_little (slice 18 20 d) in
      match last with
      | None => (false, Some server_event_counter)
      | Some l =>
          if server_event_counter =? l then (false, last)
          else (true, Some server_event_counter)
      end.

(** What the network does in one iteration of [event_listener]. *)
Inductive NetOutcome :=
  | SendFailed
  | RecvTimeout
  | Received (d : bytes).

(** One iteration of the loop of [event_listener].  The value returned is
    the request that left the socket: none when [sendto] raised, in which
    case the iteration ends there, the counter already moved on. *)
Definition event_listener_iteration (io : NetOutcome) (s : EventState)
    : option bytes * EventState :=
  let '((req_packet, req_counter), s1) := build_event_request s in
  match io with
  | SendFailed => (None, s1)
  | RecvTimeout => (Some req_packet, s1)
  | Received d =>
      if is_truthy d then
        let (fired, last) :=
          parse_event_packet d req_counter (_last_server_event_counter s1) in
        (Some req_packet,
         {| _last_server_event_counter := last;
            _event_request_counter := _event_request_counter s1;
            event_signal := if fired then true else event_signal s1 |})
      else (Some req_packet, s1)
  end.

(** Responses handed to [parse_event_packet] one after the other, each with
    the counter of the request it is matched against. *)
Fixpoint parse_event_packets (rs : list (bytes * Z)) (last : option Z)
    : list bool * option Z :=
  match rs with
  | [] => ([], last)
  | (d, expected) :: rest =>
      let (fired, last1) := parse_event_packet d expected last in
      let (fs, last2) := parse_event_packets rest last1 in
      (fired :: fs, last2)
  end.

(* ------------------------------------------------------------------ *)
(** ** Reading the model *)

(** The world [w] with a new reassembly state, drop counter and clock
    position; the other fields are kept. *)
Definition set_world (w : World) (fs : FrameState) (dropped : Z) (t : nat)
    : World :=
  {| current_frame := fs;
     frames_decoded := frames_decoded w;
     frames_dropped := dropped;
     fragments_received := fragments_received w;
     clock := clock w; ticks := t |}.

(** The reassembly state right after the start handling of [f] at time
    [now]. *)
Definition started (f : Fragment) (now : float) : FrameState :=
  {| st_id := Some (frame_id f); st_size := Some (frame_size f);
     buffer := []; expected_frag := 0; start_time := Some now |}.

(** The reassembly state [fs] after the payload of [f] has been appended. *)
Definition appended (fs : FrameState) (f : Fragment) : FrameState :=
  {| st_id := st_id fs; st_size := st_size fs;
     buffer := buffer fs ++ data f;
     expected_frag := expected_frag fs + 1;
     start_time := start_time fs |}.

(** Idle: nothing buffered, index 0 expected, no assembly in progress. *)
Definition idle (fs : FrameState) : Prop :=
  buffer fs = [] /\ expected_frag fs = 0 /\ start_time fs = None.

(** The fragment [f] with another frame id. *)
Definition with_id (f : Fragment) (i : Z) : Fragment :=
  {| flag := flag f; frame_id := i; frame_size := frame_size f;
     frag_index := frag_index f; data := data f |}.

(** A continuation fragment: neither test on the flag succeeds. *)
Definition is_continuation (f : Fragment) : Prop :=
  flag f <> 1 /\ flag f <> 2.

(* ------------------------------------------------------------------ *)
(** ** What the specification says, as predicates *)




(** A datagram the dispatcher is to reject: shorter than the header, or
    with a wrong byte 0 or byte 2, or with a payload whose length is not the
    one bytes 14-15 announce. *)
Definition malformed (d : bytes) : Prop :=
  len d < 24 \/
  index d 0 <> 0x66 \/
  index d 2 <> 0x01 \/
  len (skipn 24 d) <> int_from_bytes_little (slice 14 16 d).

(** The four checks of an event response against the counter of the
    request it answers. *)
Definition valid_response (d : bytes) (expected_request_counter : Z)
    : Prop :=
  len d = 20 /\
  slice 0 6 d = EVENT_RESPONSE_PREFIX /\
  int_from_bytes_little (slice 6 8 d) = expected_request_counter /\
  slice 8 14 d = EVENT_RESPONSE_MIDDLE.

(** The server's event counter, bytes 18-19 of a response. *)
Definition server_event_counter (d : bytes) : Z :=
  int_from_bytes_little (slice 18 20 d).

(** The signals the specification asks for, given the baseline and the
    server counters of the valid responses in the order they are processed:
    without a baseline the counter is stored and nothing is signalled; a
    counter other than the baseline is stored and signalled; a counter equal
    to the baseline changes nothing. *)
Fixpoint expected_signals (baseline : option Z) (counters : list Z)
    : list bool * option Z :=
  match counters with
  | [] => ([], baseline)
  | c :: rest =>
      match baseline with
      | None =>
          let (ss, b) := expected_signals (Some c) rest in (false :: ss, b)
      | Some b0 =>
          if Z.eq_dec c b0
          then let (ss, b) := expected_signals (Some b0) rest in
               (false :: ss, b)
          else let (ss, b) := expected_signals (Some c) rest in
               (true :: ss, b)
      end
  end.

(* ------------------------------------------------------------------ *)
(** ** Worlds, fragments and datagrams used in the examples *)

(** The double nearest to a natural number, for small numbers. *)
Fixpoint float_of_nat (n : nat) : float :=
  match n with
  | O => 0%float
  | S k => (float_of_nat k + 1)%float
  end.

(** A clock that advances by a tenth of a second per reading. *)
Definition fast_clock : nat -> float :=
  fun n => (float_of_nat n / 10)%float.

(** A clock whose readings are all later than ten seconds. *)
Definition late_clock : nat -> float :=
  fun n => ((100 + float_of_nat n) / 10)%float.

(** The payloads [b"ab"], [b"cd"] and [b"ef"]. *)
Definition ab : bytes := [x61; x62].
Definition cd : bytes := [x63; x64].
Definition ef : bytes := [x65; x66].

(** An assembly of frame 5 (six bytes declared) that has taken its first
    fragment at time 0. *)
Definition busy_frame : FrameState :=
  {| st_id := Some 5; st_size := Some 6; buffer := ab;
     expected_frag := 1; start_time := Some 0%float |}.

(** The main thread in the middle of that assembly, two clock readings
    used, under the clock [c]. *)
Definition busy_world (c : nat -> float) : World :=
  {| current_frame := busy_frame;
     frames_decoded := 0; frames_dropped := 0; fragments_received := 1;
     clock := c; ticks := 2%nat |}.

(** A 24-byte header with magic 0x66, a start flag, the marker 0x01, frame
    id 5, size 6, index 0 and an announced payload of three bytes. *)
Definition header_len3 : bytes :=
  [x66; x01; x01; x05;  x06; x00; x00; x00;  x00; x00; x00; x00;
   x00; x00; x03; x00;  x00; x00; x00; x00;  x00; x00; x00; x00].

(** A 20-byte response echoing the request counter [echo] and carrying the
    server counter [srv]. *)
Definition response (echo srv : Z) : bytes :=
  EVENT_RESPONSE_PREFIX ++ to_bytes_2_little echo ++ EVENT_RESPONSE_MIDDLE
    ++ [x00; x00; x00; x00] ++ to_bytes_2_little srv.

(* ------------------------------------------------------------------ *)
(** ** The loops, iterated

    The receive loop of [main] and the loop of [event_listener], for as
    long as [running] stays true, driven by what the sockets deliver. *)

(** What [sock.recvfrom(65535)] does in one iteration of [main]. *)
Inductive RecvOutcome :=
  | Datagram (d : bytes)
  | SocketTimeout.

Definition loop_iteration (save_mjpeg : bool) (imdecode : bytes -> bool)
    (r : RecvOutcome) : M (option bytes) :=
  match r with
  | Datagram d => on_datagram save_mjpeg imdecode d
  | SocketTimeout => on_socket_timeout ;; ret None
  end.

Fixpoint main_loop (save_mjpeg : bool) (imdecode : bytes -> bool)
    (rs : list RecvOutcome) : M (list (option bytes)) :=
  match rs with
  | [] => ret []
  | r :: rest =>
      x <- loop_iteration save_mjpeg imdecode r ;;
      xs <- main_loop save_mjpeg imdecode rest ;;
      ret (x :: xs)
  end.

(** Successive iterations of [event_listener]: for each, the request that
    left the socket if one did, and the state left at the end. *)
Fixpoint event_listener_run (ios : list NetOutcome) (s : EventState)
    : list (option bytes) * EventState :=
  match ios with
  | [] => ([], s)
  | io :: rest =>
      let (req, s1) := event_listener_iteration io s in
      let (reqs, s2) := event_listener_run rest s1 in
      (req :: reqs, s2)
  end.

(** The state after each of these iterations. *)
Fixpoint event_listener_states (ios : list NetOutcome) (s : EventState)
    : list EventState :=
  match ios with
  | [] => []
  | io :: rest =>
      let s1 := snd (event_listener_iteration io s) in
      s1 :: event_listener_states rest s1
  end.

(** Each of the datagrams [ds] answers the request of its own iteration:
    the first passes the four checks against the counter [cnt], the next
    against the counter that follows it, and so on. *)
Fixpoint answers (ds : list bytes) (cnt : Z) : Prop :=
  match ds with
  | [] => True
  | d :: rest =>
      valid_response d cnt /\ answers rest (Z.land (cnt + 1) 0xFFFF)
  end.

(** The flag of [event_signal] after each of a series of iterations that
    set it or not, as [sets] tells, when nothing clears it in between. *)
Fixpoint latch (lit : bool) (sets : list bool) : list bool :=
  match sets with
  | [] => []
  | x :: rest => (lit || x) :: latch (lit || x) rest
  end.

(* ------------------------------------------------------------------ *)
(** ** Further notions used in the statements *)

(** What the reassembly state keeps true: the expected index is not
    negative, nothing is buffered while index 0 is expected, and an assembly
    in progress has an id and a size. *)
Definition consistent (fs : FrameState) : Prop :=
  0 <= expected_frag fs /\
  (expected_frag fs = 0 -> buffer fs = []) /\
  (start_time fs <> None -> st_id fs <> None /\ st_size fs <> None).

(** The world [w] with [r] more fragments received and [d] more frames
    decoded. *)
Definition bump (w : World) (r d : Z) : World :=
  {| current_frame := current_frame w;
     frames_decoded := frames_decoded w + d;
     frames_dropped := frames_dropped w;
     fragments_received := fragments_received w + r;
     clock := clock w; ticks := ticks w |}.

(** What the loop does with the value [process_fragment] returns when the
    frame is written or decodes: an empty frame is not passed on. *)
Definition forwarded (r : option bytes) : option bytes :=
  match r with
  | Some jpeg => if is_truthy jpeg then Some jpeg else None
  | None => None
  end.

(** The number of frames among the values [rs]. *)
Definition frames_in (rs : list (option bytes)) : Z :=
  Z.of_nat (length (filter (fun r => match r with
                                     | Some _ => true
                                     | None => false
                                     end) rs)).

(** The number of datagrams with at least one byte among [rs]. *)
Definition datagrams_in (rs : list RecvOutcome) : Z :=
  Z.of_nat (length (filter (fun r => match r with
                                     | Datagram d => is_truthy d
                                     | SocketTimeout => false
                                     end) rs)).

(* ------------------------------------------------------------------ *)
(** ** Datagrams used in the further examples *)

(** The three datagrams of frame 5: six bytes declared, two bytes each, a
    start with index 0, a continuation with index 1, an end with index 2. *)
Definition datagram_ab : bytes :=
  [x66; x01; x01; x05;  x06; x00; x00; x00;  x00; x00; x00; x00;
   x00; x00; x02; x00;  x00; x00; x00; x00;  x00; x00; x00; x00] ++ ab.
Definition datagram_cd : bytes :=
  [x66; x00; x01; x05;  x06; x00; x00; x00;  x00; x00; x00; x00;
   x01; x00; x02; x00;  x00; x00; x00; x00;  x00; x00; x00; x00] ++ cd.
Definition datagram_ef : bytes :=
  [x66; x02; x01; x05;  x06; x00; x00; x00;  x00; x00; x00; x00;
   x02; x00; x02; x00;  x00; x00; x00; x00;  x00; x00; x00; x00] ++ ef.

(** A continuation with the largest index the header can hold. *)
Definition datagram_last_index : bytes :=
  [x66; x00; x01; x05;  x06; x00; x00; x00;  x00; x00; x00; x00;
   xff; xff; x02; x00;  x00; x00; x00; x00;  x00; x00; x00; x00] ++ cd.

(** An end fragment with index 1 and no payload, for a frame of no bytes. *)
Definition datagram_empty_end : bytes :=
  [x66; x02; x01; x05;  x00; x00; x00; x00;  x00; x00; x00; x00;
   x01; x00; x00; x00;  x00; x00; x00; x00;  x00; x00; x00; x00].

(** The doubles nearest to 0.1 and to 1.1.  As real numbers they differ by
    a little more than 1; subtracted as doubles they give exactly 1. *)
Definition double_0_1 : float := 0x1.999999999999ap-4%float.
Definition double_1_1 : float := 0x1.199999999999ap+0%float.

(** The assembly of [busy_frame], started at the first of these and met by
    a clock that reads the second. *)
Definition boundary_world : World :=
  {| current_frame :=
       {| st_id := Some 5; st_size := Some 6; buffer := ab;
          expected_frag := 1; start_time := Some double_0_1 |};
     frames_decoded := 0; frames_dropped := 0; fragments_received := 1;
     clock := fun _ => double_1_1; ticks := 2%nat |}.

(* ------------------------------------------------------------------ *)
(** * Properties *)

(* ------------------------------------------------------------------ *)
(** ** Comparisons *)

Lemma len_eq_size_true (b : bytes) (s : option Z) :
  len_eq_size b s = true <-> s = Some (len b).
Proof.
  destruct s as [n|]; cbn.
  - rewrite Z.eqb_eq. split; intro H; [subst; reflexivity|congruence].
  - split; intro H; discriminate.
Qed.

Lemma len_eq_size_false (b : bytes) (s : option Z) :
  len_eq_size b s = false <-> s <> Some (len b).
Proof.
  rewrite <- len_eq_size_true. destruct (len_eq_size b s); split; intro H;
    congruence.
Qed.

Lemma bytes_eqb_true (a b : bytes) : bytes_eqb a b = true <-> a = b.
Proof.
  unfold bytes_eqb. destruct (list_eq_dec _ a b); split; intro H;
    congruence.
Qed.

(* ------------------------------------------------------------------ *)
(** ** One call of [process_fragment], case by case *)

Ltac unfold_m :=
  unfold process_fragment, reset_state, bind, ret, time_time,
    get_frame_state, set_frame_state, count_drop, set_world; cbn.

(** A fragment that is not a start, met while the assembly has timed
    out. *)
Lemma process_expired (w : World) (f : Fragment) (t0 : float) :
  flag f <> 1 ->
  start_time (current_frame w) = Some t0 ->
  gtb (clock w (ticks w) - t0)%float FRAME_TIMEOUT = true ->
  process_fragment f w =
    (None, set_world w (reset_frame (current_frame w))
             (frames_dropped w + 1) (S (ticks w))).
Proof.
  intros Hf Hs Ht. apply Z.eqb_neq in Hf.
  unfold_m. rewrite Hf. cbn. rewrite Hs. cbn. rewrite Ht. reflexivity.
Qed.

(** A fragment that is not a start and does not carry the expected index,
    during an assembly. *)
Lemma process_out_of_order (w : World) (f : Fragment) (t0 : float) :
  flag f <> 1 ->
  start_time (current_frame w) = Some t0 ->
  frag_index f <> expected_frag (current_frame w) ->
  process_fragment f w =
    (None, set_world w (reset_frame (current_frame w))
             (frames_dropped w + 1) (S (ticks w))).
Proof.
  intros Hf Hs Hi. apply Z.eqb_neq in Hf. apply Z.eqb_neq in Hi.
  unfold_m. rewrite Hf. cbn. rewrite Hs. cbn.
  destruct (gtb _ _); cbn; [reflexivity|].
  rewrite Hi. reflexivity.
Qed.

(** A continuation fragment with the expected index, in time. *)
Lemma process_continuation (w : World) (f : Fragment) (t0 : float) :
  flag f <> 1 -> flag f <> 2 ->
  start_time (current_frame w) = Some t0 ->
  gtb (clock w (ticks w) - t0)%float FRAME_TIMEOUT = false ->
  frag_index f = expected_frag (current_frame w) ->
  process_fragment f w =
    (None, set_world w (appended (current_frame w) f)
             (frames_dropped w) (S (ticks w))).
Proof.
  intros Hf He Hs Ht Hi.
  apply Z.eqb_neq in Hf. apply Z.eqb_neq in He.
 apply Z.eqb_eq in Hi.
  unfold_m. rewrite Hf. cbn. rewrite Hs. cbn. rewrite Ht. cbn.
  rewrite Hi. cbn. rewrite He. unfold appended. rewrite Hs. reflexivity.
Qed.

(** An end fragment with the expected index, in time. *)
Lemma process_end (w : World) (f : Fragment) (t0 : float) :
  flag f = 2 ->
  start_time (current_frame w) = Some t0 ->
  gtb (clock w (ticks w) - t0)%float FRAME_TIMEOUT = false ->
  frag_index f = expected_frag (current_frame w) ->
  process_fragment f w =
    if len_eq_size (buffer (current_frame w) ++ data f)
         (st_size (current_frame w))
    then (Some (buffer (current_frame w) ++ data f),
          set_world w (reset_frame (current_frame w))
            (frames_dropped w) (S (ticks w)))
    else (None,
          set_world w (reset_frame (current_frame w))
            (frames_dropped w + 1) (S (ticks w))).
Proof.
  intros He Hs Ht Hi.
 apply Z.eqb_eq in Hi.
  unfold_m. rewrite He. cbn. rewrite Hs. cbn. rewrite Ht. cbn.
  rewrite Hi. cbn.
  destruct (len_eq_size _ _); reflexivity.
Qed.

(** A fragment that is not a start, met while no assembly is in
    progress: the clock is not read. *)
Lemma process_not_started (w : World) (f : Fragment) :
  flag f <> 1 ->
  start_time (current_frame w) = None ->
  process_fragment f w =
    if negb (frag_index f =? expected_frag (current_frame w))
    then (None, set_world w (reset_frame (current_frame w))
                  (frames_dropped w + 1) (ticks w))
    else if flag f =? 2
    then if len_eq_size (buffer (current_frame w) ++ data f)
              (st_size (current_frame w))
         then (Some (buffer (current_frame w) ++ data f),
               set_world w (reset_frame (current_frame w))
                 (frames_dropped w) (ticks w))
         else (None,
               set_world w (reset_frame (current_frame w))
                 (frames_dropped w + 1) (ticks w))
    else (None, set_world w (appended (current_frame w) f)
                  (frames_dropped w) (ticks w)).
Proof.
  intros Hf Hs. apply Z.eqb_neq in Hf.
  unfold_m. rewrite Hf. cbn. rewrite Hs. cbn.
  destruct (frag_index f =? _); cbn; [|reflexivity].
  destruct (flag f =? 2); cbn;
    [|unfold appended; rewrite Hs; reflexivity].
  destruct (len_eq_size _ _); reflexivity.
Qed.

(** A start fragment: the state it finds plays no part. *)
Lemma process_start (w : World) (f : Fragment) :
  flag f = 1 ->
  process_fragment f w =
    let now := clock w (ticks w) in
    if gtb (clock w (S (ticks w)) - now)%float FRAME_TIMEOUT
    then (None, set_world w (reset_frame (started f now))
                  (frames_dropped w + 1) (S (S (ticks w))))
    else if negb (frag_index f =? 0)
    then (None, set_world w (reset_frame (started f now))
                  (frames_dropped w + 1) (S (S (ticks w))))
    else (None, set_world w (appended (started f now) f)
                  (frames_dropped w) (S (S (ticks w)))).
Proof.
  intros Hf. unfold_m. rewrite Hf. cbn.
  destruct (gtb _ _); cbn; [reflexivity|].
  destruct (frag_index f =? 0); cbn; reflexivity.
Qed.

(** A frame is returned only on the path that does not count a drop. *)
Lemma frame_excludes_drop (f : Fragment) (w w' : World) (jpeg : bytes) :
  process_fragment f w = (Some jpeg, w') ->
  frames_dropped w' = frames_dropped w.
Proof.
  unfold_m.
  repeat match goal with
         | |- context [if ?c then _ else _] => destruct c; cbn
         | |- context [match start_time ?s with _ => _ end] =>
             destruct (start_time s); cbn
         end;
    intro H; inversion H; reflexivity.
Qed.

Lemma process_ignores_id (w : World) (f : Fragment) (i : Z) :
  flag f <> 1 ->
  process_fragment (with_id f i) w = process_fragment f w.
Proof.
  intros Hf. apply Z.eqb_neq in Hf.
  unfold process_fragment. cbn. rewrite Hf. reflexivity.
Qed.

(* ------------------------------------------------------------------ *)
(** ** A whole frame *)

Lemma process_fragments_app (a b : list Fragment) (w : World) :
  process_fragments (a ++ b) w =
    let (ra, wa) := process_fragments a w in
    let (rb, wb) := process_fragments b wa in
    (ra ++ rb, wb).
Proof.
  revert w. induction a as [|f a IH]; intros w;
    cbn [process_fragments app].
  - unfold ret. destruct (process_fragments b w); reflexivity.
  - unfold bind, ret. destruct (process_fragment f w) as [r w1].
    rewrite IH.
    destruct (process_fragments a w1) as [ra wa].
    destruct (process_fragments b wa) as [rb wb].
    reflexivity.
Qed.

Lemma payloads_split (f0 : Fragment) (mids : list Fragment) (fe : Fragment) :
  concat (map data (f0 :: mids ++ [fe])) =
    data f0 ++ concat (map data mids) ++ data fe.
Proof.
  cbn [map concat]. rewrite map_app, concat_app. cbn [map concat].
  rewrite app_nil_r. reflexivity.
Qed.

(** Continuation fragments with the next indices, all in time, are
    appended one after the other. *)
Lemma process_continuations (mids : list Fragment) :
  forall (w : World) (t0 : float),
    start_time (current_frame w) = Some t0 ->
    Forall is_continuation mids ->
    (forall i f, nth_error mids i = Some f ->
       frag_index f = expected_frag (current_frame w) + Z.of_nat i) ->
    (forall k, (k < length mids)%nat ->
       gtb (clock w (ticks w + k) - t0)%float FRAME_TIMEOUT = false) ->
    process_fragments mids w =
      (repeat None (length mids),
       set_world w
         {| st_id := st_id (current_frame w);
            st_size := st_size (current_frame w);
            buffer := buffer (current_frame w) ++ concat (map data mids);
            expected_frag :=
              expected_frag (current_frame w) + Z.of_nat (length mids);
            start_time := Some t0 |}
         (frames_dropped w) (ticks w + length mids)).
Proof.
  induction mids as [|f mids IH]; intros w t0 Hs Hc Hi Ht.
  - cbn. unfold ret. destruct w as [fs ? ? ? ? ?]. destruct fs. cbn in *.
    subst. rewrite app_nil_r, Z.add_0_r, Nat.add_0_r. reflexivity.
  - inversion Hc as [|? ? [Hf He] Hc']; subst.
    assert (Hi0 := Hi 0%nat f eq_refl). rewrite Z.add_0_r in Hi0.
    assert (Ht0 := Ht 0%nat ltac:(cbn; lia)). rewrite Nat.add_0_r in Ht0.
    cbn [process_fragments]. unfold bind at 1.
    rewrite (process_continuation w f t0 Hf He Hs Ht0 Hi0).
    unfold bind at 1.
    rewrite (IH _ t0); cbn.
    + unfold ret, set_world. cbn -[Z.of_nat]. rewrite <- app_assoc.
      replace (expected_frag (current_frame w) + 1 + Z.of_nat (length mids))
        with (expected_frag (current_frame w) + Z.of_nat (S (length mids)))
        by lia.
      rewrite Nat.add_succ_r. reflexivity.
    + assumption.
    + assumption.
    + intros i g Hg. rewrite (Hi (S i) g Hg). lia.
    + intros k Hk. replace (S (ticks w + k)) with (ticks w + S k)%nat by lia.
      apply Ht. cbn. lia.
Qed.

(** C1.  A start fragment with index 0, continuation fragments with the
    indices 1, 2, ... and an end fragment with the next index, whose
    payloads add up to the size the start declares, processed in order while
    every clock reading stays within the timeout of the start: the calls
    return nothing until the last, which returns the payloads joined in
    order; the drop counter is the one the sequence met. *)
Theorem whole_frame_is_emitted (w : World) (f0 : Fragment)
    (mids : list Fragment) (fe : Fragment) :
  flag f0 = 1 -> frag_index f0 = 0 ->
  Forall is_continuation mids ->
  (forall i f, nth_error mids i = Some f -> frag_index f = Z.of_nat (S i)) ->
  flag fe = 2 -> frag_index fe = Z.of_nat (S (length mids)) ->
  len (concat (map data (f0 :: mids ++ [fe]))) = frame_size f0 ->
  (forall k, (1 <= k <= S (S (length mids)))%nat ->
     gtb (clock w (ticks w + k) - clock w (ticks w))%float
       FRAME_TIMEOUT = false) ->
  process_fragments (f0 :: mids ++ [fe]) w =
    (repeat None (S (length mids))
       ++ [Some (concat (map data (f0 :: mids ++ [fe])))],
     set_world w
       {| st_id := Some (frame_id f0); st_size := Some (frame_size f0);
          buffer := []; expected_frag := 0; start_time := None |}
       (frames_dropped w) (ticks w + S (S (S (length mids))))).
Proof.
  intros Hf0 Hi0 Hc Hi He Hie Hsz Ht.
  cbn [process_fragments]. unfold bind at 1.
  rewrite (process_start w f0 Hf0). cbn zeta.
  assert (Ht1 := Ht 1%nat ltac:(lia)).
  replace (ticks w + 1)%nat with (S (ticks w)) in Ht1 by lia.
 rewrite Ht1, Hi0. cbn [Z.eqb negb].
  unfold bind at 1. rewrite process_fragments_app.
  set (w1 := set_world w _ _ _).
  rewrite (process_continuations mids w1 (clock w (ticks w)));
    [| reflexivity | assumption
     | intros i f Hn; rewrite (Hi i f Hn); subst w1;
       cbn [expected_frag current_frame set_world appended started]; lia
     | intros k Hk; cbn;
       replace (S (S (ticks w + k))) with (ticks w + S (S k))%nat by lia;
       apply Ht; lia ].
  set (w2 := set_world w1 _ _ _).
  cbn [process_fragments]. unfold bind at 1.
  rewrite (process_end w2 fe (clock w (ticks w)) He eq_refl).
  - assert (Hb : buffer (current_frame w2) ++ data fe =
                 concat (map data (f0 :: mids ++ [fe]))).
    { rewrite payloads_split. subst w2 w1.
      cbn [buffer current_frame set_world appended started app].
      rewrite <- app_assoc. reflexivity. }
    rewrite Hb.
    assert (Hl : len_eq_size (concat (map data (f0 :: mids ++ [fe])))
                   (st_size (current_frame w2)) = true).
    { apply len_eq_size_true. rewrite Hsz. reflexivity. }
    rewrite Hl. unfold bind, ret. subst w2 w1. unfold set_world.
    cbn [current_frame frames_decoded frames_dropped fragments_received
         clock ticks reset_frame st_id st_size started appended].
    replace (S (S (S (ticks w)) + length mids))%nat
      with (ticks w + S (S (S (length mids))))%nat by lia.
    reflexivity.
  - subst w2 w1. cbn [clock ticks set_world].
    replace (S (S (ticks w)) + length mids)%nat
      with (ticks w + S (S (length mids)))%nat by lia.
    apply Ht. lia.
  - subst w2 w1.
    cbn [expected_frag current_frame set_world appended started].
    rewrite Hie. lia.
Qed.

Lemma whole_frame_is_emitted_witness :
  process_fragments
    [mkFragment 1 5 6 0 ab; mkFragment 0 5 6 1 cd; mkFragment 2 5 6 2 ef]
    (initial_world fast_clock) =
  ([None; None; Some (ab ++ cd ++ ef)],
   set_world (initial_world fast_clock)
     {| st_id := Some 5; st_size := Some 6; buffer := [];
        expected_frag := 0; start_time := None |} 0 4%nat).
Proof.
  refine (whole_frame_is_emitted (initial_world fast_clock)
            (mkFragment 1 5 6 0 ab) [mkFragment 0 5 6 1 cd]
            (mkFragment 2 5 6 2 ef) eq_refl eq_refl _ _ eq_refl eq_refl
            eq_refl _).
  - constructor; [split; cbn; lia | constructor].
  - intros [|[|i]] f H; cbn in H; try discriminate.
    injection H as <-. reflexivity.
  - intros k Hk.
    assert (Hk' : k = 1%nat \/ k = 2%nat \/ k = 3%nat) by (cbn in Hk; lia).
    destruct Hk' as [-> | [-> | ->]]; reflexivity.
Defined.

(** The second scenario of the specification: the fragment with index 1 is
    lost and the end fragment comes with index 1; four bytes are not the six
    declared, so one drop is counted and nothing is returned. *)
Example end_fragment_after_a_loss :
  process_fragments [mkFragment 1 5 6 0 ab; mkFragment 2 5 6 1 ef]
    (initial_world fast_clock) =
  ([None; None],
   set_world (initial_world fast_clock)
     {| st_id := Some 5; st_size := Some 6; buffer := [];
        expected_frag := 0; start_time := None |} 1 3%nat).
Proof. reflexivity. Qed.

(* ------------------------------------------------------------------ *)
(** ** The timeout *)




(** The receive-timeout branch of the loop applies the same rule to the
    state alone. *)
Lemma socket_timeout_drops (w : World) (t0 : float) :
  start_time (current_frame w) = Some t0 ->
  gtb (clock w (ticks w) - t0)%float FRAME_TIMEOUT = true ->
  on_socket_timeout w =
    (tt, set_world w (reset_frame (current_frame w))
           (frames_dropped w + 1) (S (ticks w))).
Proof.
  intros Hs Ht.
  unfold on_socket_timeout. unfold_m. rewrite Hs. cbn. rewrite Ht.
  reflexivity.
Qed.

(** The timeout is judged on the difference the machine computes: an
    assembly started at 0.1 and met at 1.1 has not timed out, for a fragment
    or for a receive timeout. *)
Example one_second_by_the_clock_is_in_time :
  gtb (double_1_1 - double_0_1)%float FRAME_TIMEOUT = false /\
  process_fragment (mkFragment 0 5 6 1 cd) boundary_world =
    (None,
     set_world boundary_world
       {| st_id := Some 5; st_size := Some 6; buffer := ab ++ cd;
          expected_frag := 2; start_time := Some double_0_1 |} 0 3%nat) /\
  on_socket_timeout boundary_world =
    (tt, set_world boundary_world (current_frame boundary_world) 0 3%nat).
Proof. repeat split. Qed.

(* ------------------------------------------------------------------ *)
(** ** Single-fragment frames *)

(** C3 as worded fails.  A payload of two bytes with a declared size of
    two, in one fragment
    with index 0, handed to the reassembler in its initial state: whatever
    the flag byte, no frame comes out. *)
Lemma single_fragment_counterexample :
  ~ exists fl : Z,
      fst (process_fragment (mkFragment fl 5 2 0 ab)
             (initial_world fast_clock)) = Some ab.
Proof.
  intros [fl H].
  destruct (Z.eq_dec fl 1) as [->|Hn].
  - vm_compute in H. discriminate.
  - rewrite process_not_started in H by (cbn; auto).
    cbn in H. destruct (fl =? 2); cbn in H; discriminate.
Qed.

(** C3, amended.  The flag is one value, compared with 1 for a start and
    with 2 for an end, so no fragment is both.  A start fragment with index
    0 resets the state and is appended, and returns nothing even when its
    payload already has the declared size; the frame is returned by the end
    fragment with index 1 that follows in time, here one whose payload is
    empty, through the same completion check. *)
Theorem single_payload_needs_end_fragment (w : World) (f g : Fragment) :
  flag f = 1 -> frag_index f = 0 ->
  len (data f) = frame_size f ->
  flag g = 2 -> frag_index g = 1 -> data g = [] ->
  gtb (clock w (S (ticks w)) - clock w (ticks w))%float FRAME_TIMEOUT = false ->
  gtb (clock w (S (S (ticks w))) - clock w (ticks w))%float FRAME_TIMEOUT
    = false ->
  (forall h : Fragment, ~ (flag h = 1 /\ flag h = 2)) /\
  process_fragment f w =
    (None,
     set_world w
       {| st_id := Some (frame_id f); st_size := Some (frame_size f);
          buffer := data f; expected_frag := 1;
          start_time := Some (clock w (ticks w)) |}
       (frames_dropped w) (S (S (ticks w)))) /\
  process_fragments [f; g] w =
    ([None; Some (data f)],
     set_world w
       {| st_id := Some (frame_id f); st_size := Some (frame_size f);
          buffer := []; expected_frag := 0; start_time := None |}
       (frames_dropped w) (S (S (S (ticks w))))).
Proof.
  intros Hf Hi Hl Hg Hgi Hgd Ht1 Ht2.
  assert (Hp : process_fragment f w =
                 (None,
                  set_world w (appended (started f (clock w (ticks w))) f)
                    (frames_dropped w) (S (S (ticks w))))).
  { rewrite process_start by assumption. cbn zeta.
 rewrite Ht1, Hi. reflexivity. }
  split; [intros h [H1 H2]; congruence|].
  split; [exact Hp|].
  cbn [process_fragments]. unfold bind, ret. rewrite Hp.
  rewrite (process_end
             (set_world w (appended (started f (clock w (ticks w))) f)
                (frames_dropped w) (S (S (ticks w))))
             g (clock w (ticks w)) Hg eq_refl Ht2)
    by (rewrite Hgi; reflexivity).
  cbn [buffer current_frame set_world appended started st_size app].
  rewrite Hgd, app_nil_r.
  assert (Hs : len_eq_size (data f) (Some (frame_size f)) = true)
    by (apply len_eq_size_true; congruence).
  rewrite Hs. reflexivity.
Qed.

Lemma single_payload_needs_end_fragment_witness :
  process_fragments [mkFragment 1 5 2 0 ab; mkFragment 2 5 2 1 []]
    (initial_world fast_clock) =
  ([None; Some ab],
   set_world (initial_world fast_clock)
     {| st_id := Some 5; st_size := Some 2; buffer := [];
        expected_frag := 0; start_time := None |} 0 3%nat).
Proof.
  refine (proj2 (proj2 (single_payload_needs_end_fragment
                          (initial_world fast_clock)
                          (mkFragment 1 5 2 0 ab) (mkFragment 2 5 2 1 [])
                          eq_refl eq_refl eq_refl eq_refl eq_refl eq_refl
                          _ _)));
    reflexivity.
Defined.

(* ------------------------------------------------------------------ *)
(** ** Ordering, completion, frame ids, the idle state *)

(** C4.  During an assembly, a fragment that is not a start and whose index
    is not the expected one aborts the frame: nothing is returned, the
    buffer is emptied without the payload, exactly one drop is counted, and
    the state left behind takes a following start fragment with index 0 as
    any state does: the start's id and size are recorded and its payload
    becomes the buffer. *)
Theorem gap_aborts_frame (w : World) (f : Fragment) (t0 : float) :
  start_time (current_frame w) = Some t0 ->
  flag f <> 1 ->
  frag_index f <> expected_frag (current_frame w) ->
  exists w',
    process_fragment f w = (None, w') /\
    current_frame w' = reset_frame (current_frame w) /\
    buffer (current_frame w') = [] /\
    frames_dropped w' = frames_dropped w + 1 /\
    frames_decoded w' = frames_decoded w /\
    forall g : Fragment,
      flag g = 1 -> frag_index g = 0 ->
      gtb (clock w' (S (ticks w')) - clock w' (ticks w'))%float
        FRAME_TIMEOUT = false ->
      process_fragment g w' =
        (None,
         set_world w'
           {| st_id := Some (frame_id g); st_size := Some (frame_size g);
              buffer := data g; expected_frag := 1;
              start_time := Some (clock w' (ticks w')) |}
           (frames_dropped w') (S (S (ticks w')))).
Proof.
  intros Hs Hf Hi.
  exists (set_world w (reset_frame (current_frame w))
            (frames_dropped w + 1) (S (ticks w))).
  split; [apply process_out_of_order with (t0 := t0); assumption|].
  cbn. repeat split.
  intros g Hg Hg0 Ht. rewrite process_start by assumption. cbn.
 cbn in Ht. rewrite Ht.
  rewrite Hg0. reflexivity.
Qed.

Lemma gap_aborts_frame_witness :
  start_time (current_frame (busy_world fast_clock)) = Some 0%float /\
  flag (mkFragment 2 5 6 2 ef) <> 1 /\
  frag_index (mkFragment 2 5 6 2 ef)
    <> expected_frag (current_frame (busy_world fast_clock)) /\
  exists w',
    process_fragment (mkFragment 2 5 6 2 ef) (busy_world fast_clock)
      = (None, w') /\
    frames_dropped w' = 1.
Proof.
  assert (H1 : start_time (current_frame (busy_world fast_clock))
                 = Some 0%float) by reflexivity.
  assert (H2 : flag (mkFragment 2 5 6 2 ef) <> 1) by (cbn; lia).
  assert (H3 : frag_index (mkFragment 2 5 6 2 ef)
                 <> expected_frag (current_frame (busy_world fast_clock)))
    by (cbn; lia).
  repeat split; try assumption.
  destruct (gap_aborts_frame _ _ _ H1 H2 H3) as (w' & Hp & _ & _ & Hd & _).
  exists w'. split; [exact Hp | exact Hd].
Defined.

(** C5.  An end fragment that gets past the timeout check and carries the
    expected index, but leaves the buffer at a length other than the size
    held in the state (or finds no size there), returns no frame, counts
    one drop and leaves the state idle.  And whatever the fragment and the
    state, a call that returns a frame leaves the drop counter as it
    was. *)
Theorem end_size_mismatch_drops (w : World) (f : Fragment) :
  flag f = 2 ->
  (forall t0, start_time (current_frame w) = Some t0 ->
     gtb (clock w (ticks w) - t0)%float FRAME_TIMEOUT = false) ->
  frag_index f = expected_frag (current_frame w) ->
  st_size (current_frame w)
    <> Some (len (buffer (current_frame w) ++ data f)) ->
  (exists w',
     process_fragment f w = (None, w') /\
     frames_dropped w' = frames_dropped w + 1 /\
     current_frame w' = reset_frame (current_frame w) /\
     idle (current_frame w')) /\
  (forall (g : Fragment) (v v' : World) (jpeg : bytes),
     process_fragment g v = (Some jpeg, v') ->
     frames_dropped v' = frames_dropped v).
Proof.
  intros He Ht Hi Hn. apply len_eq_size_false in Hn.
  split; [|intros g v v' jpeg; apply frame_excludes_drop].
  destruct (start_time (current_frame w)) as [t0|] eqn:Hs.
  - exists (set_world w (reset_frame (current_frame w))
              (frames_dropped w + 1) (S (ticks w))).
    rewrite (process_end w f t0 He Hs (Ht t0 eq_refl) Hi), Hn.
    unfold idle. cbn. repeat split.
  - exists (set_world w (reset_frame (current_frame w))
              (frames_dropped w + 1) (ticks w)).
    rewrite process_not_started by (assumption || lia).
    rewrite Hi, Z.eqb_refl, He, Hn. unfold idle. cbn. repeat split.
Qed.

Lemma end_size_mismatch_drops_witness :
  exists w',
    process_fragment (mkFragment 2 5 6 1 cd) (busy_world fast_clock)
      = (None, w') /\
    frames_dropped w' = 1 /\
    current_frame w' = reset_frame busy_frame /\
    idle (current_frame w').
Proof.
  refine (proj1 (end_size_mismatch_drops (busy_world fast_clock)
                   (mkFragment 2 5 6 1 cd) eq_refl _ eq_refl _)).
  - intros t0 H. injection H as <-. reflexivity.
  - vm_compute. discriminate.
Defined.

(** C9.  During an assembly, what happens to a fragment that is not a start
    and carries the expected index does not depend on its frame id: with
    any id [i] in place of its own the call returns the same value and
    leaves the same world.  When the timeout has not elapsed, a
    continuation is appended, and an end fragment is appended and then
    judged by the size check alone; the id held in the state is never
    compared with the fragment's. *)
Theorem frame_id_not_validated (w : World) (f : Fragment) (t0 : float) (i : Z) :
  start_time (current_frame w) = Some t0 ->
  flag f <> 1 ->
  frag_index f = expected_frag (current_frame w) ->
  process_fragment (with_id f i) w = process_fragment f w /\
  (gtb (clock w (ticks w) - t0)%float FRAME_TIMEOUT = false ->
   (flag f <> 2 ->
    process_fragment (with_id f i) w =
      (None, set_world w (appended (current_frame w) f)
               (frames_dropped w) (S (ticks w)))) /\
   (flag f = 2 ->
    process_fragment (with_id f i) w =
      if len_eq_size (buffer (current_frame w) ++ data f)
           (st_size (current_frame w))
      then (Some (buffer (current_frame w) ++ data f),
            set_world w (reset_frame (current_frame w))
              (frames_dropped w) (S (ticks w)))
      else (None,
            set_world w (reset_frame (current_frame w))
              (frames_dropped w + 1) (S (ticks w))))).
Proof.
  intros Hs Hf Hi.
  split; [apply process_ignores_id; assumption|].
  intros Ht. rewrite process_ignores_id by assumption. split.
  - intros He. apply process_continuation with (t0 := t0); assumption.
  - intros He. apply process_end with (t0 := t0); assumption.
Qed.

Lemma frame_id_not_validated_witness :
  process_fragment (with_id (mkFragment 0 5 6 1 cd) 9) (busy_world fast_clock)
    = process_fragment (mkFragment 0 5 6 1 cd) (busy_world fast_clock) /\
  buffer (current_frame
            (snd (process_fragment (mkFragment 0 9 6 1 cd)
                    (busy_world fast_clock))))
    = ab ++ cd.
Proof.
  assert (Ht : gtb (clock (busy_world fast_clock)
                      (ticks (busy_world fast_clock)) - 0)%float
                 FRAME_TIMEOUT = false) by reflexivity.
  assert (Hf : flag (mkFragment 0 5 6 1 cd) <> 1) by (cbn; lia).
  assert (He : flag (mkFragment 0 5 6 1 cd) <> 2) by (cbn; lia).
  destruct (frame_id_not_validated (busy_world fast_clock)
              (mkFragment 0 5 6 1 cd) 0%float 9 eq_refl Hf eq_refl)
    as [Hsame Happ].
  split; [exact Hsame|].
  destruct (Happ Ht) as [Hc _].
  change (mkFragment 0 9 6 1 cd) with (with_id (mkFragment 0 5 6 1 cd) 9).
  rewrite (Hc He). reflexivity.
Defined.

(** C10.  In an idle state a fragment with index 0 that is not a start is
    taken: a continuation leaves its payload as the buffer and index 1
    expected, with the id and size already in the state and still no start
    time; an end fragment is judged against the size already in the state,
    and counts a drop when that size is absent or different, a frame
    otherwise.  In the initial state the size is absent, so an end fragment
    always counts a drop. *)
Theorem idle_takes_non_start (w : World) (f : Fragment) :
  idle (current_frame w) ->
  flag f <> 1 ->
  frag_index f = 0 ->
  (flag f <> 2 ->
   process_fragment f w =
     (None,
      set_world w
        {| st_id := st_id (current_frame w);
           st_size := st_size (current_frame w);
           buffer := data f; expected_frag := 1; start_time := None |}
        (frames_dropped w) (ticks w))) /\
  (flag f = 2 ->
   st_size (current_frame w) <> Some (len (data f)) ->
   process_fragment f w =
     (None, set_world w (reset_frame (current_frame w))
              (frames_dropped w + 1) (ticks w))) /\
  (flag f = 2 ->
   st_size (current_frame w) = Some (len (data f)) ->
   process_fragment f w =
     (Some (data f), set_world w (reset_frame (current_frame w))
                       (frames_dropped w) (ticks w))) /\
  (flag f = 2 ->
   forall c, process_fragment f (initial_world c) =
               (None, set_world (initial_world c) initial_frame 1 0%nat)).
Proof.
  intros (Hb & Hx & Hs) Hf Hi.
  assert (Hp := process_not_started w f Hf Hs).
  rewrite Hi, Hx, Hb in Hp. cbn in Hp.
  repeat split.
  - intros He. apply Z.eqb_neq in He. rewrite He in Hp. rewrite Hp.
    unfold appended. rewrite Hb, Hx, Hs. reflexivity.
  - intros He Hn. apply len_eq_size_false in Hn.
    rewrite He, Hn in Hp. exact Hp.
  - intros He Hn. apply len_eq_size_true in Hn.
    rewrite He, Hn in Hp. exact Hp.
  - intros He c. rewrite process_not_started by (assumption || reflexivity).
    cbn. rewrite Hi, He. reflexivity.
Qed.

Lemma idle_takes_non_start_witness :
  process_fragment (mkFragment 0 7 9 0 cd) (initial_world fast_clock) =
    (None,
     set_world (initial_world fast_clock)
       {| st_id := None; st_size := None; buffer := cd;
          expected_frag := 1; start_time := None |} 0 0%nat) /\
  process_fragment (mkFragment 2 7 2 0 cd) (initial_world fast_clock) =
    (None, set_world (initial_world fast_clock) initial_frame 1 0%nat).
Proof.
  split.
  - refine (proj1 (idle_takes_non_start (initial_world fast_clock)
                     (mkFragment 0 7 9 0 cd) _ _ eq_refl) _).
    + repeat split.
    + cbn. lia.
    + cbn. lia.
  - refine (proj1 (proj2 (idle_takes_non_start (initial_world fast_clock)
                            (mkFragment 2 7 2 0 cd) _ _ eq_refl)) eq_refl _).
    + repeat split.
    + cbn. lia.
    + cbn. discriminate.
Defined.

(* ------------------------------------------------------------------ *)
(** ** The parser and the receive loop *)

Lemma index_header (d : bytes) (i : nat) :
  (i < 24)%nat -> index (slice 0 24 d) i = index d i.
Proof.
  intros Hi. unfold index, slice. cbn [skipn Nat.sub].
  rewrite nth_firstn.
  destruct (Nat.ltb_spec i 24); [reflexivity|lia].
Qed.

Lemma slice_header (d : bytes) (lo hi : nat) :
  (lo <= hi <= 24)%nat -> slice lo hi (slice 0 24 d) = slice lo hi d.
Proof.
  intros H. unfold slice. cbn [skipn Nat.sub].
  rewrite skipn_firstn_comm, firstn_firstn.
  f_equal. lia.
Qed.

(** What the parser returns, with the header fields read off the datagram
    itself. *)
Lemma parse_mjpeg_packet_eq (d : bytes) :
  parse_mjpeg_packet d =
    if len d <? 24 then None
    else if negb (index d 0 =? 0x66) || negb (index d 2 =? 0x01) then None
    else if negb (len (skipn 24 d) =? int_from_bytes_little (slice 14 16 d))
    then None
    else Some {| flag := index d 1;
                 frame_id := index d 3;
                 frame_size := int_from_bytes_little (slice 4 8 d);
                 frag_index := int_from_bytes_little (slice 12 14 d);
                 data := skipn 24 d |}.
Proof.
  unfold parse_mjpeg_packet.
  rewrite !index_header by lia. rewrite !slice_header by lia.
  reflexivity.
Qed.

(** A datagram whose payload has the announced length is parsed. *)
Example parse_mjpeg_packet_accepts :
  parse_mjpeg_packet (header_len3 ++ ab ++ [x63]) =
    Some (mkFragment 1 5 6 0 (ab ++ [x63])).
Proof. reflexivity. Qed.

(** C6.  A malformed datagram gets nothing from the parser, and the loop
    iteration that receives it leaves the reassembly state and the drop
    counter as they were and hands nothing to the sink. *)
Theorem malformed_datagram_rejected (save_mjpeg : bool)
    (imdecode : bytes -> bool) (d : bytes) (w : World) :
  malformed d ->
  parse_mjpeg_packet d = None /\
  fst (on_datagram save_mjpeg imdecode d w) = None /\
  current_frame (snd (on_datagram save_mjpeg imdecode d w))
    = current_frame w /\
  frames_dropped (snd (on_datagram save_mjpeg imdecode d w))
    = frames_dropped w /\
  ticks (snd (on_datagram save_mjpeg imdecode d w)) = ticks w.
Proof.
  intros Hm.
  assert (Hp : parse_mjpeg_packet d = None).
  { rewrite parse_mjpeg_packet_eq.
    destruct (len d <? 24) eqn:Hl; [reflexivity|].
    destruct (index d 0 =? 0x66) eqn:H0; [|reflexivity].
    destruct (index d 2 =? 0x01) eqn:H2; [|reflexivity].
    destruct (len (skipn 24 d) =? int_from_bytes_little (slice 14 16 d))
      eqn:Hs; [|reflexivity].
    apply Z.ltb_ge in Hl. apply Z.eqb_eq in H0, H2, Hs.
    destruct Hm as [H | [H | [H | H]]]; contradiction || lia. }
  split; [exact Hp|].
  unfold on_datagram. destruct (is_truthy d); cbn.
  - unfold bind, count_received, ret. rewrite Hp. cbn. repeat split.
  - unfold ret. cbn. repeat split.
Qed.

Lemma malformed_datagram_rejected_witness :
  parse_mjpeg_packet (header_len3 ++ ab) = None /\
  current_frame
    (snd (on_datagram false (fun _ => true) (header_len3 ++ ab)
            (busy_world fast_clock)))
    = busy_frame.
Proof.
  assert (Hm : malformed (header_len3 ++ ab)).
  { right. right. right. vm_compute. discriminate. }
  destruct (malformed_datagram_rejected false (fun _ => true)
              (header_len3 ++ ab) (busy_world fast_clock) Hm)
    as (Hp & _ & Hc & _).
  split; [exact Hp | exact Hc].
Defined.

(* ------------------------------------------------------------------ *)
(** ** The event channel: baseline and signal *)

Lemma parse_event_packet_valid (d : bytes) (expected : Z) (last : option Z) :
  valid_response d expected ->
  parse_event_packet d expected last =
    match last with
    | None => (false, Some (server_event_counter d))
    | Some l =>
        if server_event_counter d =? l then (false, Some l)
        else (true, Some (server_event_counter d))
    end.
Proof.
  intros (Hl & Hp & Hc & Hm).
  apply Z.eqb_eq in Hl, Hc. apply bytes_eqb_true in Hp, Hm.
  unfold parse_event_packet, server_event_counter.
  rewrite Hl, Hp, Hc, Hm. cbn [negb].
  destruct last as [l|]; reflexivity.
Qed.

Lemma parse_event_packet_invalid (d : bytes) (expected : Z)
    (last : option Z) :
  ~ valid_response d expected ->
  parse_event_packet d expected last = (false, last).
Proof.
  intros Hn. unfold parse_event_packet.
  destruct (len d =? 20) eqn:Hl; [|reflexivity].
  destruct (bytes_eqb (slice 0 6 d) EVENT_RESPONSE_PREFIX) eqn:Hp;
    [|reflexivity].
  destruct (int_from_bytes_little (slice 6 8 d) =? expected) eqn:Hc;
    [|reflexivity].
  destruct (bytes_eqb (slice 8 14 d) EVENT_RESPONSE_MIDDLE) eqn:Hm;
    [|reflexivity].
  exfalso. apply Hn.
  apply Z.eqb_eq in Hl, Hc. apply bytes_eqb_true in Hp, Hm.
  repeat split; assumption.
Qed.

(** An iteration of the listener that receives a datagram checks it against
    the counter of the request it has just built, and sets the signal when
    the call reports an event. *)
Lemma listener_iteration_received (d : bytes) (s : EventState) :
  is_truthy d = true ->
  snd (event_listener_iteration (Received d) s) =
    let (fired, last) :=
      parse_event_packet d (_event_request_counter s)
        (_last_server_event_counter s) in
    {| _last_server_event_counter := last;
       _event_request_counter :=
         Z.land (_event_request_counter s + 1) 0xFFFF;
       event_signal := if fired then true else event_signal s |}.
Proof.
  intros Hd. unfold event_listener_iteration, build_event_request.
  cbn [_last_server_event_counter _event_request_counter event_signal].
  rewrite Hd. destruct (parse_event_packet _ _ _). reflexivity.
Qed.

Lemma parse_event_packets_expected (rs : list (bytes * Z)) :
  Forall (fun r => valid_response (fst r) (snd r)) rs ->
  forall last : option Z,
    parse_event_packets rs last =
      expected_signals last (map (fun r => server_event_counter (fst r)) rs).
Proof.
  intros Hv.
  induction Hv as [|[d e] rs Hd Hv IH]; intros last;
    cbn [parse_event_packets expected_signals map fst].
  - reflexivity.
  - cbn [fst snd] in Hd. rewrite (parse_event_packet_valid d e last Hd).
    destruct last as [l|].
    + destruct (Z.eq_dec (server_event_counter d) l) as [Heq|Hne].
      * rewrite (proj2 (Z.eqb_eq _ _) Heq), IH. reflexivity.
      * rewrite (proj2 (Z.eqb_neq _ _) Hne), IH. reflexivity.
    + rewrite IH. reflexivity.
Qed.

Lemma valid_is_truthy (d : bytes) (e : Z) :
  valid_response d e -> is_truthy d = true.
Proof.
  intros (Hl & _). destruct d; [discriminate|reflexivity].
Qed.

(** The iteration of the listener that receives a response passing the
    four checks against its own request. *)
Lemma listener_iteration_valid (d : bytes) (t : EventState) :
  valid_response d (_event_request_counter t) ->
  snd (event_listener_iteration (Received d) t) =
    {| _last_server_event_counter :=
         match _last_server_event_counter t with
         | None => Some (server_event_counter d)
         | Some l => if server_event_counter d =? l then Some l
                     else Some (server_event_counter d)
         end;
       _event_request_counter :=
         Z.land (_event_request_counter t + 1) 0xFFFF;
       event_signal :=
         match _last_server_event_counter t with
         | None => event_signal t
         | Some l => if server_event_counter d =? l then event_signal t
                     else true
         end |}.
Proof.
  intros Hv.
  rewrite (listener_iteration_received d t (valid_is_truthy d _ Hv)).
  rewrite (parse_event_packet_valid d _ _ Hv).
  destruct (_last_server_event_counter t) as [l|]; [|reflexivity].
  destruct (server_event_counter d =? l); reflexivity.
Qed.

Lemma expected_signals_cons (baseline : option Z) (c : Z) (cs : list Z) :
  expected_signals baseline (c :: cs) =
    match baseline with
    | None =>
        (false :: fst (expected_signals (Some c) cs),
         snd (expected_signals (Some c) cs))
    | Some l =>
        if c =? l
        then (false :: fst (expected_signals (Some l) cs),
              snd (expected_signals (Some l) cs))
        else (true :: fst (expected_signals (Some c) cs),
              snd (expected_signals (Some c) cs))
    end.
Proof.
  cbn [expected_signals]. destruct baseline as [l|].
  - destruct (Z.eq_dec c l) as [Heq|Hne].
    + rewrite (proj2 (Z.eqb_eq _ _) Heq).
      destruct (expected_signals (Some l) cs). reflexivity.
    + rewrite (proj2 (Z.eqb_neq _ _) Hne).
      destruct (expected_signals (Some c) cs). reflexivity.
  - destruct (expected_signals (Some c) cs). reflexivity.
Qed.

(** C7.  The listener, over responses that each pass the four checks
    against the request of their own iteration, leaves the baseline and
    sets [event_signal] as the specification asks: the baseline ends as
    specified, and the flag after each iteration is the flag before it, set
    in exactly the iterations specified.  Iteration by iteration: without a
    baseline the server counter is stored and the flag left as it was; a
    counter other than the baseline is stored and the flag set; a counter
    equal to the baseline changes neither, so a flag the consumer has
    cleared stays cleared. *)
Theorem event_signals_on_change (ds : list bytes) (s : EventState) :
  answers ds (_event_request_counter s) ->
  _last_server_event_counter
    (snd (event_listener_run (map Received ds) s))
    = snd (expected_signals (_last_server_event_counter s)
             (map server_event_counter ds)) /\
  map event_signal (event_listener_states (map Received ds) s)
    = latch (event_signal s)
        (fst (expected_signals (_last_server_event_counter s)
                (map server_event_counter ds))) /\
  (forall (d : bytes) (t : EventState),
     valid_response d (_event_request_counter t) ->
     (_last_server_event_counter t = None ->
      _last_server_event_counter
        (snd (event_listener_iteration (Received d) t))
        = Some (server_event_counter d) /\
      event_signal (snd (event_listener_iteration (Received d) t))
        = event_signal t) /\
     (forall b,
        _last_server_event_counter t = Some b ->
        server_event_counter d <> b ->
        _last_server_event_counter
          (snd (event_listener_iteration (Received d) t))
          = Some (server_event_counter d) /\
        event_signal (snd (event_listener_iteration (Received d) t))
          = true) /\
     (forall b,
        _last_server_event_counter t = Some b ->
        server_event_counter d = b ->
        _last_server_event_counter
          (snd (event_listener_iteration (Received d) t))
          = Some b /\
        event_signal (snd (event_listener_iteration (Received d) t))
          = event_signal t)).
Proof.
  intros Ha. split; [|split].
  - revert s Ha. induction ds as [|d ds IH]; intros s Ha.
    + reflexivity.
    + destruct Ha as [Hv Ha].
      cbn [map event_listener_run].
      pose proof (listener_iteration_valid d s Hv) as Hs.
      destruct (event_listener_iteration (Received d) s) as [req s1].
      cbn [snd] in Hs.
      assert (Ha1 : answers ds (_event_request_counter s1))
        by (rewrite Hs; exact Ha).
      specialize (IH s1 Ha1).
      destruct (event_listener_run (map Received ds) s1) as [reqs s2].
      cbn [snd] in IH |- *. rewrite IH, expected_signals_cons, Hs.
      cbn [_last_server_event_counter].
      destruct (_last_server_event_counter s) as [l|]; [|reflexivity].
      destruct (server_event_counter d =? l); reflexivity.
  - revert s Ha. induction ds as [|d ds IH]; intros s Ha.
    + reflexivity.
    + destruct Ha as [Hv Ha].
      cbn [map event_listener_states].
      pose proof (listener_iteration_valid d s Hv) as Hs.
      assert (Ha1 : answers ds
                      (_event_request_counter
                         (snd (event_listener_iteration (Received d) s))))
        by (rewrite Hs; exact Ha).
      rewrite (IH _ Ha1), expected_signals_cons, Hs.
      cbn [_last_server_event_counter event_signal].
      destruct (_last_server_event_counter s) as [l|].
      * destruct (server_event_counter d =? l); cbn [fst latch];
          rewrite ?orb_false_r, ?orb_true_r; reflexivity.
      * cbn [fst latch]. rewrite orb_false_r. reflexivity.
  - intros d t Hv. rewrite (listener_iteration_valid d t Hv).
    cbn [_last_server_event_counter event_signal].
    repeat split.
    + rewrite H. reflexivity.
    + rewrite H. reflexivity.
    + rewrite H. apply Z.eqb_neq in H0. rewrite H0. reflexivity.
    + rewrite H. apply Z.eqb_neq in H0. rewrite H0. reflexivity.
    + rewrite H. apply Z.eqb_eq in H0. rewrite H0. reflexivity.
    + rewrite H. apply Z.eqb_eq in H0. rewrite H0. reflexivity.
Qed.

Lemma event_signals_on_change_witness :
  _last_server_event_counter
    (snd (event_listener_run
            (map Received [response 7 100; response 8 100; response 9 101])
            (mkEventState None 7 false)))
    = Some 101 /\
  map event_signal
    (event_listener_states
       (map Received [response 7 100; response 8 100; response 9 101])
       (mkEventState None 7 false))
    = [false; false; true].
Proof.
  destruct (event_signals_on_change
              [response 7 100; response 8 100; response 9 101]
              (mkEventState None 7 false)) as (H1 & H2 & _).
  - repeat split.
  - split; [exact H1 | exact H2].
Defined.

(** C8.  A response that fails one of the four checks reports no event and
    leaves the baseline as it was; hence a call that reports an event or
    changes the baseline was given a response that passes all four.  In the
    listener the counter checked against is the one of the request built in
    the same iteration, and a failing response leaves baseline and signal
    untouched. *)
Theorem invalid_response_discarded (d : bytes) (expected : Z)
    (last : option Z) (s : EventState) :
  ~ valid_response d expected ->
  parse_event_packet d expected last = (false, last) /\
  (forall d' e' l',
     parse_event_packet d' e' l' <> (false, l') -> valid_response d' e') /\
  (expected = _event_request_counter s ->
   _last_server_event_counter (snd (event_listener_iteration (Received d) s))
     = _last_server_event_counter s /\
   event_signal (snd (event_listener_iteration (Received d) s))
     = event_signal s).
Proof.
  intros Hn. split; [apply parse_event_packet_invalid; assumption|].
  split.
  - intros d' e' l' Hne.
    destruct (len d' =? 20) eqn:Hl;
      [|exfalso; apply Hne; unfold parse_event_packet; rewrite Hl;
        reflexivity].
    destruct (bytes_eqb (slice 0 6 d') EVENT_RESPONSE_PREFIX) eqn:Hp;
      [|exfalso; apply Hne; unfold parse_event_packet; rewrite Hl, Hp;
        reflexivity].
    destruct (int_from_bytes_little (slice 6 8 d') =? e') eqn:Hc;
      [|exfalso; apply Hne; unfold parse_event_packet; rewrite Hl, Hp, Hc;
        reflexivity].
    destruct (bytes_eqb (slice 8 14 d') EVENT_RESPONSE_MIDDLE) eqn:Hm;
      [|exfalso; apply Hne; unfold parse_event_packet;
        rewrite Hl, Hp, Hc, Hm; reflexivity].
    apply Z.eqb_eq in Hl, Hc. apply bytes_eqb_true in Hp, Hm.
    repeat split; assumption.
  - intros ->. unfold event_listener_iteration, build_event_request.
    cbn [_last_server_event_counter _event_request_counter event_signal].
    destruct (is_truthy d); [|split; reflexivity].
    rewrite parse_event_packet_invalid by assumption.
    split; reflexivity.
Qed.

Lemma invalid_response_discarded_witness :
  parse_event_packet (response 7 101) 8 (Some 100) = (false, Some 100).
Proof.
  refine (proj1 (invalid_response_discarded (response 7 101) 8 (Some 100)
                   initial_events _)).
  intros (_ & _ & Hc & _). vm_compute in Hc. discriminate.
Defined.

(* ------------------------------------------------------------------ *)
(** * Further properties *)

(* ------------------------------------------------------------------ *)
(** ** The reassembler, whatever the fragment and the state *)

(** Every call of [process_fragment] ends in one of three ways, told by the
    state [fs] that the checks look at (the one found, or the fresh one of
    a start fragment): the state is reset and a drop counted; the payload
    is appended; the buffer with the payload is returned and the state
    reset. *)
Lemma process_fragment_cases (f : Fragment) (w : World) :
  exists (fs : FrameState) (t : nat),
    ((flag f <> 1 /\ fs = current_frame w) \/
     (flag f = 1 /\ fs = started f (clock w (ticks w)))) /\
    (ticks w <= t <= ticks w + 2)%nat /\
    (process_fragment f w =
       (None, set_world w (reset_frame fs) (frames_dropped w + 1) t) \/
     (process_fragment f w =
        (None, set_world w (appended fs f) (frames_dropped w) t) /\
      flag f <> 2 /\ frag_index f = expected_frag fs) \/
     (process_fragment f w =
        (Some (buffer fs ++ data f),
         set_world w (reset_frame fs) (frames_dropped w) t) /\
      flag f = 2 /\ frag_index f = expected_frag fs /\
      st_size fs = Some (len (buffer fs ++ data f)))).
Proof.
  destruct (Z.eq_dec (flag f) 1) as [Hf|Hf].
  - exists (started f (clock w (ticks w))), (S (S (ticks w))).
    split; [right; split; [assumption|reflexivity]|].
    split; [lia|].
    rewrite process_start by assumption. cbn zeta.
    destruct (gtb _ _); [left; reflexivity|].
    destruct (frag_index f =? 0) eqn:Hi; cbn [negb];
      [|left; reflexivity].
    right. left. apply Z.eqb_eq in Hi.
    split; [reflexivity|]. split; [lia|exact Hi].
  - destruct (start_time (current_frame w)) as [t0|] eqn:Hs.
    + exists (current_frame w), (S (ticks w)).
      split; [left; split; [assumption|reflexivity]|].
      split; [lia|].
      destruct (gtb (clock w (ticks w) - t0)%float FRAME_TIMEOUT) eqn:Ht.
      * left.
        apply process_expired with (t0 := t0); assumption.
      *
        destruct (Z.eq_dec (frag_index f) (expected_frag (current_frame w)))
          as [Hi|Hi];
          [|left; apply process_out_of_order with (t0 := t0); assumption].
        destruct (Z.eq_dec (flag f) 2) as [He|He].
        -- rewrite (process_end w f t0 He Hs Ht Hi).
           destruct (len_eq_size _ _) eqn:Hl; [|left; reflexivity].
           right. right. apply len_eq_size_true in Hl.
           repeat split; assumption.
        -- right. left.
           split; [apply process_continuation with (t0 := t0); assumption|].
           split; assumption.
    + exists (current_frame w), (ticks w).
      split; [left; split; [assumption|reflexivity]|].
      split; [lia|].
      rewrite process_not_started by assumption.
      destruct (frag_index f =? expected_frag (current_frame w)) eqn:Hi;
        cbn [negb]; [|left; reflexivity].
      apply Z.eqb_eq in Hi.
      destruct (flag f =? 2) eqn:He.
      * apply Z.eqb_eq in He.
        destruct (len_eq_size _ _) eqn:Hl; [|left; reflexivity].
        right. right. apply len_eq_size_true in Hl.
        repeat split; assumption.
      * apply Z.eqb_neq in He. right. left. repeat split; assumption.
Qed.

(** X1.  A frame comes out only of an end fragment with the expected index:
    it is the buffer found followed by the fragment's payload, its length is
    the size held in the state, and the state is reset behind it. *)
Theorem emitted_frame_is_complete (f : Fragment) (w w' : World)
    (jpeg : bytes) :
  process_fragment f w = (Some jpeg, w') ->
  flag f = 2 /\
  frag_index f = expected_frag (current_frame w) /\
  jpeg = buffer (current_frame w) ++ data f /\
  st_size (current_frame w) = Some (len jpeg) /\
  current_frame w' = reset_frame (current_frame w) /\
  frames_dropped w' = frames_dropped w.
Proof.
  intros H.
  destruct (process_fragment_cases f w)
    as (fs & t & Hfs & _ & [Hp | [[Hp _] | (Hp & He & Hi & Hz)]]);
    rewrite Hp in H; try discriminate.
  destruct Hfs as [[_ ->] | [Hf _]]; [|lia].
  injection H as <- <-. cbn. repeat split; assumption.
Qed.

Lemma emitted_frame_is_complete_witness :
  flag (mkFragment 2 9 0 1 (cd ++ ef)) = 2 /\
  ab ++ cd ++ ef = buffer busy_frame ++ data (mkFragment 2 9 0 1 (cd ++ ef)).
Proof.
  destruct (emitted_frame_is_complete (mkFragment 2 9 0 1 (cd ++ ef))
              (busy_world fast_clock)
              (set_world (busy_world fast_clock) (reset_frame busy_frame)
                 0 3%nat)
              (ab ++ cd ++ ef) eq_refl) as (H1 & _ & H3 & _).
  split; [exact H1 | exact H3].
Defined.

(** X2.  One call counts at most one drop, reads the clock at most twice,
    and leaves the other two counters alone; and when it has returned a
    frame or counted a drop, the state it leaves is idle. *)
Theorem process_fragment_accounting (f : Fragment) (w : World) :
  frames_decoded (snd (process_fragment f w)) = frames_decoded w /\
  fragments_received (snd (process_fragment f w)) = fragments_received w /\
  clock (snd (process_fragment f w)) = clock w /\
  (ticks w <= ticks (snd (process_fragment f w)) <= ticks w + 2)%nat /\
  (frames_dropped (snd (process_fragment f w)) = frames_dropped w \/
   frames_dropped (snd (process_fragment f w)) = frames_dropped w + 1) /\
  (fst (process_fragment f w) <> None \/
   frames_dropped (snd (process_fragment f w)) = frames_dropped w + 1 ->
   idle (current_frame (snd (process_fragment f w)))).
Proof.
  destruct (process_fragment_cases f w)
    as (fs & t & _ & Ht & [Hp | [[Hp _] | [Hp _]]]);
    rewrite Hp; cbn;
    repeat match goal with |- _ /\ _ => split end;
    try reflexivity; try lia;
    try solve [intros _; unfold idle; cbn; repeat split; reflexivity].
  intros [H | H]; [congruence | lia].
Qed.

(** X3.  A start fragment forgets the assembly it finds: the value returned,
    the state left and the drop counter are the same whatever state was
    there, so an assembly cut short by a new start is not counted as a
    drop. *)
Theorem start_fragment_forgets_assembly (f : Fragment) (w : World)
    (fs : FrameState) :
  flag f = 1 ->
  process_fragment f
    (set_world w fs (frames_dropped w) (ticks w))
  = process_fragment f w.
Proof.
  intros Hf. rewrite !process_start by assumption. reflexivity.
Qed.

Lemma start_fragment_forgets_assembly_witness :
  process_fragment (mkFragment 1 6 4 0 cd)
    (set_world (initial_world fast_clock) busy_frame 0 0%nat)
  = (None,
     set_world (initial_world fast_clock)
       {| st_id := Some 6; st_size := Some 4; buffer := cd;
          expected_frag := 1; start_time := Some (fast_clock 0) |}
       0 2%nat).
Proof.
  exact (eq_trans
           (start_fragment_forgets_assembly (mkFragment 1 6 4 0 cd)
              (initial_world fast_clock) busy_frame eq_refl)
           eq_refl).
Defined.

Lemma reset_frame_consistent (fs : FrameState) : consistent (reset_frame fs).
Proof.
  unfold consistent. cbn. repeat split; try lia; congruence.
Qed.

Lemma process_fragment_consistent (f : Fragment) (w : World) :
  consistent (current_frame w) ->
  consistent (current_frame (snd (process_fragment f w))).
Proof.
  intros (H0 & Hb & Hs).
  destruct (process_fragment_cases f w)
    as (fs & t & Hfs & _ & [Hp | [[Hp _] | [Hp _]]]);
    rewrite Hp; cbn; try apply reset_frame_consistent.
  unfold consistent. cbn.
  destruct Hfs as [[_ ->] | [_ ->]]; cbn.
  - repeat split; [lia | intros; lia | apply Hs; assumption
                   | apply Hs; assumption].
  - repeat split; try lia; congruence.
Qed.

(** X4.  The reassembler keeps its state consistent: after any fragment the
    expected index is not negative, the buffer is empty while index 0 is
    expected, and an assembly in progress has an id and a size; so it is
    after any sequence of fragments from the initial state. *)
Theorem reassembler_keeps_state_consistent (fs : list Fragment) (w : World) :
  consistent (current_frame w) ->
  consistent (current_frame (snd (process_fragments fs w))).
Proof.
  revert w. induction fs as [|f fs IH]; intros w Hw.
  - exact Hw.
  - cbn [process_fragments]. unfold bind, ret.
    assert (H1 := process_fragment_consistent f w Hw).
    destruct (process_fragment f w) as [r w1]. cbn [snd] in H1.
    specialize (IH w1 H1).
    destruct (process_fragments fs w1) as [rs w2]. exact IH.
Qed.

Lemma reassembler_keeps_state_consistent_witness :
  consistent
    (current_frame
       (snd (process_fragments
               [mkFragment 0 7 9 0 cd; mkFragment 1 5 6 0 ab;
                mkFragment 0 5 6 1 cd]
               (initial_world fast_clock)))).
Proof.
  apply reassembler_keeps_state_consistent.
  unfold consistent. cbn. repeat split; try lia; congruence.
Defined.

Lemma reset_frame_idle (fs : FrameState) : idle fs -> reset_frame fs = fs.
Proof.
  destruct fs as [i s b e t]. unfold idle. cbn.
  intros (-> & -> & ->). reflexivity.
Qed.

(** While nothing is in progress and index 0 is expected, every fragment
    that is not a start and has another index counts a drop. *)
Lemma late_fragments_in_idle (fs : list Fragment) :
  forall w : World,
    idle (current_frame w) ->
    Forall (fun f => flag f <> 1 /\ frag_index f <> 0) fs ->
    process_fragments fs w =
      (repeat None (length fs),
       set_world w (current_frame w)
         (frames_dropped w + Z.of_nat (length fs)) (ticks w)).
Proof.
  induction fs as [|f fs IH]; intros w Hw Hfs.
  - cbn. unfold ret. destruct w. cbn. rewrite Z.add_0_r. reflexivity.
  - inversion Hfs as [|? ? [Hf Hi] Hfs']; subst.
    destruct Hw as (Hb & Hx & Hs).
    cbn [process_fragments]. unfold bind, ret.
    rewrite process_not_started by assumption.
    rewrite Hx. apply Z.eqb_neq in Hi. rewrite Hi. cbn [negb].
    rewrite reset_frame_idle by (repeat split; assumption).
    rewrite IH; [|repeat split; assumption|assumption].
    cbn [length repeat set_world current_frame frames_decoded frames_dropped
         fragments_received clock ticks].
    replace (frames_dropped w + 1 + Z.of_nat (length fs))
      with (frames_dropped w + Z.of_nat (S (length fs))) by lia.
    reflexivity.
Qed.

(** X5.  When the fragment after the start is lost, each later fragment of
    the frame counts a drop of its own: after a start with index 0, a run
    of fragments that are not starts and carry neither index 0 nor index 1
    returns nothing and raises the drop counter by the length of the
    run. *)
Theorem lost_fragment_costs_every_later_one (f0 : Fragment)
    (rest : list Fragment) (w : World) :
  flag f0 = 1 -> frag_index f0 = 0 ->
  gtb (clock w (S (ticks w)) - clock w (ticks w))%float FRAME_TIMEOUT = false ->
  Forall (fun f => flag f <> 1 /\ frag_index f <> 0 /\ frag_index f <> 1)
    rest ->
  fst (process_fragments (f0 :: rest) w) = repeat None (S (length rest)) /\
  frames_dropped (snd (process_fragments (f0 :: rest) w))
    = frames_dropped w + Z.of_nat (length rest).
Proof.
  intros Hf Hi Ht Hrest.
  assert (Hp : process_fragment f0 w =
                 (None,
                  set_world w (appended (started f0 (clock w (ticks w))) f0)
                    (frames_dropped w) (S (S (ticks w))))).
  { rewrite process_start by assumption. cbn zeta.
 rewrite Ht, Hi. reflexivity. }
  destruct rest as [|f rest].
  - cbn [process_fragments]. unfold bind, ret. rewrite Hp. cbn.
    split; [reflexivity|lia].
  - inversion Hrest as [|? ? (Hf1 & Hi0 & Hi1) Hrest']; subst.
    cbn [process_fragments]. unfold bind, ret. rewrite Hp.
    rewrite (process_out_of_order
               (set_world w (appended (started f0 (clock w (ticks w))) f0)
                  (frames_dropped w) (S (S (ticks w))))
               f (clock w (ticks w)) Hf1 eq_refl)
      by (cbn; lia).
    rewrite late_fragments_in_idle.
    + cbn [fst snd set_world frames_dropped length repeat].
      split; [reflexivity|lia].
    + repeat split.
    + eapply Forall_impl; [|exact Hrest'].
      intros g (H1 & H2 & _). split; assumption.
Qed.

Lemma lost_fragment_costs_every_later_one_witness :
  fst (process_fragments
         [mkFragment 1 5 6 0 ab; mkFragment 0 5 6 2 cd; mkFragment 2 5 6 3 ef]
         (initial_world fast_clock)) = [None; None; None] /\
  frames_dropped
    (snd (process_fragments
            [mkFragment 1 5 6 0 ab; mkFragment 0 5 6 2 cd;
             mkFragment 2 5 6 3 ef]
            (initial_world fast_clock))) = 2.
Proof.
  refine (lost_fragment_costs_every_later_one (mkFragment 1 5 6 0 ab)
            [mkFragment 0 5 6 2 cd; mkFragment 2 5 6 3 ef]
            (initial_world fast_clock) eq_refl eq_refl _ _).
  - reflexivity.
  - repeat constructor; cbn; lia.
Defined.

(** X21.  A continuation delivered twice aborts the frame: the first copy
    is appended, the second no longer carries the expected index, so the
    state is reset and a drop counted. *)
Theorem duplicate_continuation_aborts_frame (f : Fragment) (w : World)
    (t0 : float) :
  is_continuation f ->
  start_time (current_frame w) = Some t0 ->
  gtb (clock w (ticks w) - t0)%float FRAME_TIMEOUT = false ->
  frag_index f = expected_frag (current_frame w) ->
  process_fragments [f; f] w =
    ([None; None],
     set_world w (reset_frame (current_frame w))
       (frames_dropped w + 1) (S (S (ticks w)))).
Proof.
  intros [Hf He] Hs Ht Hi.
  cbn [process_fragments]. unfold bind, ret.
  rewrite (process_continuation w f t0 Hf He Hs Ht Hi).
  rewrite (process_out_of_order
             (set_world w (appended (current_frame w) f)
                (frames_dropped w) (S (ticks w)))
             f t0 Hf)
    by (cbn; assumption || lia).
  reflexivity.
Qed.

Lemma duplicate_continuation_aborts_frame_witness :
  process_fragments [mkFragment 0 5 6 1 cd; mkFragment 0 5 6 1 cd]
    (busy_world fast_clock) =
  ([None; None],
   set_world (busy_world fast_clock) (reset_frame busy_frame) 1 4%nat).
Proof.
  refine (duplicate_continuation_aborts_frame (mkFragment 0 5 6 1 cd)
            (busy_world fast_clock) 0%float _ eq_refl _ eq_refl).
  - split; cbn; lia.
  - reflexivity.
Defined.

(* ------------------------------------------------------------------ *)
(** ** The parser, field by field *)

Lemma byte_val_range (b : byte) : 0 <= byte_val b < 256.
Proof.
  unfold byte_val. pose proof (Byte.to_N_bounded b). lia.
Qed.

Lemma int_from_bytes_little_range (bs : bytes) :
  0 <= int_from_bytes_little bs < 256 ^ Z.of_nat (length bs).
Proof.
  induction bs as [|b bs IH].
  - cbn. lia.
  - cbn [int_from_bytes_little length]. rewrite Nat2Z.inj_succ.
    rewrite Z.pow_succ_r by lia.
    pose proof (byte_val_range b). lia.
Qed.

Lemma slice_length (lo hi : nat) (d : bytes) :
  (length (slice lo hi d) <= hi - lo)%nat.
Proof. unfold slice. apply firstn_le_length. Qed.

Lemma int_from_slice_range (lo hi : nat) (d : bytes) :
  0 <= int_from_bytes_little (slice lo hi d) < 256 ^ Z.of_nat (hi - lo).
Proof.
  pose proof (int_from_bytes_little_range (slice lo hi d)) as H.
  pose proof (slice_length lo hi d) as Hl.
  assert (256 ^ Z.of_nat (length (slice lo hi d))
            <= 256 ^ Z.of_nat (hi - lo))
    by (apply Z.pow_le_mono_r; lia).
  lia.
Qed.

Lemma index_range (d : bytes) (i : nat) : 0 <= index d i < 256.
Proof. apply byte_val_range. Qed.

Lemma index_firstn (n i : nat) (d : bytes) :
  (i < n)%nat -> index (firstn n d) i = index d i.
Proof.
  intros Hi. unfold index. rewrite nth_firstn.
  destruct (Nat.ltb_spec i n); [reflexivity|lia].
Qed.

Lemma slice_firstn (n lo hi : nat) (d : bytes) :
  (lo <= hi <= n)%nat -> slice lo hi (firstn n d) = slice lo hi d.
Proof.
  intros H. unfold slice.
  rewrite skipn_firstn_comm, firstn_firstn. f_equal. lia.
Qed.

(** X6.  A datagram that is not malformed is parsed, and the fragment holds
    byte 1 as flag, byte 3 as id, bytes 4-7 and 12-13 read little-endian as
    size and index, and everything after byte 23 as payload; conversely a
    datagram that is parsed is not malformed and is 24 bytes longer than the
    payload handed on. *)
Theorem parse_mjpeg_packet_accepts_well_formed (d : bytes) :
  ~ malformed d ->
  parse_mjpeg_packet d =
    Some {| flag := index d 1;
            frame_id := index d 3;
            frame_size := int_from_bytes_little (slice 4 8 d);
            frag_index := int_from_bytes_little (slice 12 14 d);
            data := skipn 24 d |} /\
  (forall (d' : bytes) (f : Fragment),
     parse_mjpeg_packet d' = Some f ->
     ~ malformed d' /\ data f = skipn 24 d' /\ len d' = 24 + len (data f)).
Proof.
  intros Hn. split.
  - rewrite parse_mjpeg_packet_eq. unfold malformed in Hn.
    destruct (len d <? 24) eqn:Hl;
      [apply Z.ltb_lt in Hl; tauto|].
    destruct (index d 0 =? 0x66) eqn:H0;
      [|apply Z.eqb_neq in H0; tauto].
    destruct (index d 2 =? 0x01) eqn:H2;
      [|apply Z.eqb_neq in H2; tauto].
    destruct (len (skipn 24 d) =? int_from_bytes_little (slice 14 16 d))
      eqn:Hs; [|apply Z.eqb_neq in Hs; tauto].
    reflexivity.
  - intros d' f. rewrite parse_mjpeg_packet_eq. unfold malformed.
    remember (skipn 24 d') as payload eqn:Hpl.
    destruct (len d' <? 24) eqn:Hl; [discriminate|].
    destruct (index d' 0 =? 0x66) eqn:H0; [|discriminate].
    destruct (index d' 2 =? 0x01) eqn:H2; [|discriminate].
    destruct (len payload =? int_from_bytes_little (slice 14 16 d'))
      eqn:Hs; [|discriminate].
    cbn [negb orb]. intros H. injection H as <-. cbn [data].
    apply Z.ltb_ge in Hl. apply Z.eqb_eq in H0, H2, Hs.
    split; [|split; [reflexivity|]].
    + intros [H | [H | [H | H]]]; lia || contradiction.
    + subst payload. unfold len in *. rewrite length_skipn. lia.
Qed.

Lemma parse_mjpeg_packet_accepts_well_formed_witness :
  parse_mjpeg_packet (header_len3 ++ ab ++ [x63]) =
    Some (mkFragment 1 5 6 0 (ab ++ [x63])).
Proof.
  refine (proj1 (parse_mjpeg_packet_accepts_well_formed
                   (header_len3 ++ ab ++ [x63]) _)).
  intros [H | [H | [H | H]]]; vm_compute in H;
    try discriminate; apply H; reflexivity.
Defined.

(** X7.  The fields of a parsed fragment are bounded by their width on the
    wire: flag and id below 256, the declared size below 2^32, the index
    below 65536, and the payload shorter than 65536 bytes. *)
Theorem parsed_fields_are_bounded (d : bytes) (f : Fragment) :
  parse_mjpeg_packet d = Some f ->
  0 <= flag f < 256 /\
  0 <= frame_id f < 256 /\
  0 <= frame_size f < 2 ^ 32 /\
  0 <= frag_index f < 65536 /\
  0 <= len (data f) < 65536.
Proof.
  rewrite parse_mjpeg_packet_eq.
  remember (skipn 24 d) as payload eqn:Hpl.
  destruct (len d <? 24); [discriminate|].
  destruct (negb (index d 0 =? 0x66) || negb (index d 2 =? 0x01));
    [discriminate|].
  destruct (len payload =? int_from_bytes_little (slice 14 16 d))
    eqn:Hs; [|discriminate].
  cbn [negb]. intros H. injection H as <-. cbn [flag frame_id frame_size
    frag_index data].
  apply Z.eqb_eq in Hs. rewrite Hs.
  pose proof (index_range d 1). pose proof (index_range d 3).
  pose proof (int_from_slice_range 4 8 d) as H4.
  pose proof (int_from_slice_range 12 14 d) as H12.
  pose proof (int_from_slice_range 14 16 d) as H14.
  change (256 ^ Z.of_nat (8 - 4)) with (2 ^ 32) in H4.
  change (256 ^ Z.of_nat (14 - 12)) with 65536 in H12.
  change (256 ^ Z.of_nat (16 - 14)) with 65536 in H14.
  repeat split; lia.
Qed.

Lemma parsed_fields_are_bounded_witness :
  0 <= frame_size (mkFragment 1 5 6 0 (ab ++ [x63])) < 2 ^ 32 /\
  0 <= frag_index (mkFragment 1 5 6 0 (ab ++ [x63])) < 65536.
Proof.
  destruct (parsed_fields_are_bounded (header_len3 ++ ab ++ [x63])
              (mkFragment 1 5 6 0 (ab ++ [x63])) eq_refl)
    as (_ & _ & H3 & H4 & _).
  split; [exact H3 | exact H4].
Defined.

(** X8.  The parser does not look at bytes 8-11 and 16-23 of the header:
    two datagrams of the same length that agree on bytes 0-7, on bytes
    12-15 and on the payload are parsed alike. *)
Theorem reserved_header_bytes_are_ignored (d d' : bytes) :
  length d = length d' ->
  firstn 8 d = firstn 8 d' ->
  slice 12 16 d = slice 12 16 d' ->
  skipn 24 d = skipn 24 d' ->
  parse_mjpeg_packet d = parse_mjpeg_packet d'.
Proof.
  intros Hl H8 H12 H24.
  assert (Hi : forall i, (i < 8)%nat -> index d i = index d' i).
  { intros i Hi. rewrite <- (index_firstn 8 i d), <- (index_firstn 8 i d')
      by assumption. rewrite H8. reflexivity. }
  assert (Hsz : slice 4 8 d = slice 4 8 d').
  { rewrite <- (slice_firstn 8 4 8 d), <- (slice_firstn 8 4 8 d') by lia.
    rewrite H8. reflexivity. }
  assert (Hix : slice 12 14 d = slice 12 14 d').
  { assert (E : forall x, slice 12 14 x = firstn 2 (slice 12 16 x)).
    { intros x. unfold slice. rewrite firstn_firstn. reflexivity. }
    rewrite !E, H12. reflexivity. }
  assert (Hfs : slice 14 16 d = slice 14 16 d').
  { assert (E : forall x, slice 14 16 x = skipn 2 (slice 12 16 x)).
    { intros x. unfold slice. rewrite skipn_firstn_comm, skipn_skipn.
      reflexivity. }
    rewrite !E, H12. reflexivity. }
  rewrite !parse_mjpeg_packet_eq.
  unfold len. rewrite Hl, H24, Hsz, Hix, Hfs.
  rewrite (Hi 0%nat), (Hi 1%nat), (Hi 2%nat), (Hi 3%nat) by lia.
  reflexivity.
Qed.

Lemma reserved_header_bytes_are_ignored_witness :
  parse_mjpeg_packet
    ([x66; x01; x01; x05;  x06; x00; x00; x00;  xff; xff; xff; xff;
      x00; x00; x03; x00;  xff; xff; xff; xff;  xff; xff; xff; xff]
       ++ ab ++ [x63])
  = parse_mjpeg_packet (header_len3 ++ ab ++ [x63]).
Proof.
  apply reserved_header_bytes_are_ignored; reflexivity.
Defined.

(* ------------------------------------------------------------------ *)
(** ** The receive loop *)

Lemma parsed_is_truthy (d : bytes) (f : Fragment) :
  parse_mjpeg_packet d = Some f -> is_truthy d = true.
Proof.
  unfold parse_mjpeg_packet. destruct d as [|b d]; [|reflexivity].
  cbn. discriminate.
Qed.

(** The iteration that receives a datagram the parser accepts. *)
Lemma on_datagram_parsed (save_mjpeg : bool) (imdecode : bytes -> bool)
    (d : bytes) (f : Fragment) (w : World) :
  parse_mjpeg_packet d = Some f ->
  on_datagram save_mjpeg imdecode d w =
    let (r, w1) := process_fragment f (snd (count_received w)) in
    match forwarded r with
    | Some jpeg =>
        if save_mjpeg || imdecode jpeg
        then (Some jpeg, snd (count_decoded w1))
        else (None, snd (count_drop (snd (count_decoded w1))))
    | None => (None, w1)
    end.
Proof.
  intros Hp. unfold on_datagram.
  rewrite (parsed_is_truthy d f Hp), Hp. cbn [negb].
  unfold bind, ret. cbn [count_received snd].
  destruct (process_fragment f _) as [[jpeg|] w1]; cbn [forwarded];
    [|reflexivity].
  destruct (is_truthy jpeg); [|reflexivity].
  destruct save_mjpeg; [reflexivity|]. cbn [orb].
  destruct (imdecode jpeg); reflexivity.
Qed.

(** X9.  No datagram can carry on an assembly that already expects an index
    of 65536 or more: the index field is two bytes wide, so a parsed
    fragment that is not a start is dropped, the state reset and one drop
    counted. *)
Theorem no_fragment_after_index_65535 (save_mjpeg : bool)
    (imdecode : bytes -> bool) (d : bytes) (f : Fragment) (w : World) :
  parse_mjpeg_packet d = Some f ->
  flag f <> 1 ->
  65536 <= expected_frag (current_frame w) ->
  fst (on_datagram save_mjpeg imdecode d w) = None /\
  current_frame (snd (on_datagram save_mjpeg imdecode d w))
    = reset_frame (current_frame w) /\
  frames_dropped (snd (on_datagram save_mjpeg imdecode d w))
    = frames_dropped w + 1.
Proof.
  intros Hp Hf He.
  assert (Hi : frag_index f <> expected_frag (current_frame w)).
  { revert Hp. rewrite parse_mjpeg_packet_eq.
    destruct (len d <? 24); [discriminate|].
    destruct (negb (index d 0 =? 0x66) || negb (index d 2 =? 0x01));
      [discriminate|].
    destruct (negb (len (skipn 24 d) =? _)); [discriminate|].
    intros H. injection H as <-. cbn [frag_index].
    pose proof (int_from_slice_range 12 14 d) as H12.
    change (256 ^ Z.of_nat (14 - 12)) with 65536 in H12. lia. }
  rewrite (on_datagram_parsed _ _ d f w Hp).
  destruct (process_fragment_cases f (snd (count_received w)))
    as (fs & t & [[_ ->] | [Hf1 _]] & _
        & [Hq | [(_ & _ & Hx) | (_ & _ & Hx & _)]]);
    try contradiction; try (cbn in Hx; contradiction).
  rewrite Hq. cbn. repeat split.
Qed.

Lemma no_fragment_after_index_65535_witness :
  fst (on_datagram true (fun _ => true) datagram_last_index
         (set_world (busy_world fast_clock)
            {| st_id := Some 5; st_size := Some 6; buffer := ab;
               expected_frag := 65536; start_time := Some 0%float |} 0 2%nat))
  = None.
Proof.
  refine (proj1 (no_fragment_after_index_65535 true (fun _ => true)
                   datagram_last_index (mkFragment 0 5 6 65535 cd) _
                   eq_refl _ _)).
  - cbn. lia.
  - cbn. lia.
Defined.

(** The reassembler neither reads nor writes the counters of received
    fragments and decoded frames. *)
Lemma process_fragment_bump (f : Fragment) (w : World) (r d : Z) :
  process_fragment f (bump w r d) =
    let (x, w') := process_fragment f w in (x, bump w' r d).
Proof.
  unfold bump. unfold_m.
  repeat match goal with
         | |- context [if ?c then _ else _] => destruct c; cbn
         | |- context [match start_time ?s with _ => _ end] =>
             destruct (start_time s); cbn
         end;
    reflexivity.
Qed.

Lemma count_received_bump (w : World) : snd (count_received w) = bump w 1 0.
Proof.
  destruct w. unfold count_received, bump. cbn. f_equal. lia.
Qed.

(** X10.  With the display on, a frame the reassembler completes but
    [cv2.imdecode] rejects is counted as decoded and as dropped, both, and
    does not reach the screen. *)
Theorem undecodable_frame_is_counted_twice (imdecode : bytes -> bool)
    (d : bytes) (f : Fragment) (w : World) (jpeg : bytes) :
  parse_mjpeg_packet d = Some f ->
  fst (process_fragment f w) = Some jpeg ->
  jpeg <> [] ->
  imdecode jpeg = false ->
  fst (on_datagram false imdecode d w) = None /\
  frames_decoded (snd (on_datagram false imdecode d w))
    = frames_decoded w + 1 /\
  frames_dropped (snd (on_datagram false imdecode d w))
    = frames_dropped w + 1 /\
  fragments_received (snd (on_datagram false imdecode d w))
    = fragments_received w + 1.
Proof.
  intros Hp Hr Hne Hd.
  rewrite (on_datagram_parsed _ _ d f w Hp).
  rewrite count_received_bump, process_fragment_bump.
  destruct (process_fragment f w) as [r w1] eqn:Hq. cbn [fst] in Hr. subst r.
  pose proof (frame_excludes_drop f w w1 jpeg Hq) as Hdrop.
  pose proof (process_fragment_cases f w)
    as (fs & t & _ & _ & [Hc | [[Hc _] | [Hc _]]]);
    rewrite Hq in Hc; try discriminate.
  injection Hc as _ ->.
  cbn [forwarded]. destruct jpeg as [|b jpeg]; [contradiction|].
  cbn [is_truthy orb]. rewrite Hd. cbn. repeat split; lia.
Qed.

Lemma undecodable_frame_is_counted_twice_witness :
  frames_decoded
    (snd (on_datagram false (fun _ => false) datagram_ef
            (set_world (busy_world fast_clock)
               {| st_id := Some 5; st_size := Some 6; buffer := ab ++ cd;
                  expected_frag := 2; start_time := Some 0%float |} 0 2%nat)))
    = 1 /\
  frames_dropped
    (snd (on_datagram false (fun _ => false) datagram_ef
            (set_world (busy_world fast_clock)
               {| st_id := Some 5; st_size := Some 6; buffer := ab ++ cd;
                  expected_frag := 2; start_time := Some 0%float |} 0 2%nat)))
    = 1.
Proof.
  destruct (undecodable_frame_is_counted_twice (fun _ => false) datagram_ef
              (mkFragment 2 5 6 2 ef)
              (set_world (busy_world fast_clock)
                 {| st_id := Some 5; st_size := Some 6; buffer := ab ++ cd;
                    expected_frag := 2; start_time := Some 0%float |} 0 2%nat)
              (ab ++ cd ++ ef) eq_refl eq_refl)
    as (_ & H2 & H3 & _);
    [discriminate | reflexivity | split; [exact H2 | exact H3]].
Defined.

(** X11.  A frame of no bytes that the reassembler completes is not passed
    on and not counted, neither as decoded nor as dropped: the loop treats
    the empty value as no frame. *)
Theorem empty_frame_is_not_counted (save_mjpeg : bool)
    (imdecode : bytes -> bool) (d : bytes) (f : Fragment) (w : World) :
  parse_mjpeg_packet d = Some f ->
  fst (process_fragment f w) = Some [] ->
  fst (on_datagram save_mjpeg imdecode d w) = None /\
  frames_decoded (snd (on_datagram save_mjpeg imdecode d w))
    = frames_decoded w /\
  frames_dropped (snd (on_datagram save_mjpeg imdecode d w))
    = frames_dropped w /\
  idle (current_frame (snd (on_datagram save_mjpeg imdecode d w))).
Proof.
  intros Hp Hr.
  rewrite (on_datagram_parsed _ _ d f w Hp).
  rewrite count_received_bump, process_fragment_bump.
  destruct (process_fragment f w) as [r w1] eqn:Hq. cbn [fst] in Hr. subst r.
  pose proof (process_fragment_cases f w)
    as (fs & t & _ & _ & [Hc | [[Hc _] | [Hc _]]]);
    rewrite Hq in Hc; try discriminate.
  injection Hc as _ ->.
  cbn. unfold idle. cbn. repeat split; lia.
Qed.

Lemma empty_frame_is_not_counted_witness :
  fst (on_datagram true (fun _ => true) datagram_empty_end
         (set_world (busy_world fast_clock)
            {| st_id := Some 5; st_size := Some 0; buffer := [];
               expected_frag := 1; start_time := Some 0%float |} 0 2%nat))
    = None /\
  frames_dropped
    (snd (on_datagram true (fun _ => true) datagram_empty_end
            (set_world (busy_world fast_clock)
               {| st_id := Some 5; st_size := Some 0; buffer := [];
                  expected_frag := 1; start_time := Some 0%float |} 0 2%nat)))
    = 0.
Proof.
  destruct (empty_frame_is_not_counted true (fun _ => true)
              datagram_empty_end (mkFragment 2 5 0 1 [])
              (set_world (busy_world fast_clock)
                 {| st_id := Some 5; st_size := Some 0; buffer := [];
                    expected_frag := 1; start_time := Some 0%float |} 0 2%nat)
              eq_refl eq_refl)
    as (H1 & _ & H3 & _).
  split; [exact H1 | exact H3].
Defined.

Lemma socket_timeout_not_started (w : World) :
  start_time (current_frame w) = None -> on_socket_timeout w = (tt, w).
Proof.
  intros Hs. unfold on_socket_timeout, bind, get_frame_state, ret.
  rewrite Hs. reflexivity.
Qed.

Lemma socket_timeouts_not_started (save_mjpeg : bool)
    (imdecode : bytes -> bool) (n : nat) (w : World) :
  start_time (current_frame w) = None ->
  main_loop save_mjpeg imdecode (repeat SocketTimeout n) w
    = (repeat None n, w).
Proof.
  intros Hs. induction n as [|n IH]; [reflexivity|].
  cbn [repeat main_loop loop_iteration]. unfold bind, ret.
  rewrite socket_timeout_not_started by assumption.
  unfold bind, ret in IH. rewrite IH. reflexivity.
Qed.

Lemma socket_timeout_in_time (w : World) (t0 : float) :
  start_time (current_frame w) = Some t0 ->
  gtb (clock w (ticks w) - t0)%float FRAME_TIMEOUT = false ->
  on_socket_timeout w =
    (tt, set_world w (current_frame w) (frames_dropped w) (S (ticks w))).
Proof.
  intros Hs Ht.
  unfold on_socket_timeout. unfold_m. rewrite Hs. cbn. rewrite Ht.
  reflexivity.
Qed.

(** However many receive timeouts come in a row, they count at most one
    drop. *)
Lemma socket_timeouts_drop_once (save_mjpeg : bool)
    (imdecode : bytes -> bool) (m : nat) :
  forall v : World,
    frames_dropped v
      <= frames_dropped
           (snd (main_loop save_mjpeg imdecode (repeat SocketTimeout m) v))
      <= frames_dropped v + 1.
Proof.
  induction m as [|m IH]; intros v.
  - cbn. lia.
  - destruct (start_time (current_frame v)) as [t0|] eqn:Hs.
    + cbn [repeat main_loop loop_iteration]. unfold bind, ret.
      destruct (gtb (clock v (ticks v) - t0)%float FRAME_TIMEOUT) eqn:Ht.
      * rewrite (socket_timeout_drops v t0 Hs Ht).
        pose proof (socket_timeouts_not_started save_mjpeg imdecode m
                      (set_world v (reset_frame (current_frame v))
                         (frames_dropped v + 1) (S (ticks v))) eq_refl)
          as Hr.
        unfold bind, ret in Hr. rewrite Hr. cbn. lia.
      * rewrite (socket_timeout_in_time v t0 Hs Ht).
        specialize (IH (set_world v (current_frame v) (frames_dropped v)
                          (S (ticks v)))).
        destruct (main_loop save_mjpeg imdecode (repeat SocketTimeout m) _)
          as [xs v2].
        cbn [snd set_world frames_dropped] in IH |- *. exact IH.
    + rewrite socket_timeouts_not_started by assumption. cbn. lia.
Qed.

(** X12.  Receive timeouts in a row count at most one drop.  When the
    assembly has a start time and the clock reading of the first receive
    timeout exceeds it by more than the frame timeout, that timeout resets
    the state and counts the drop, and those that follow change nothing and
    do not read the clock.  While there is no start time, which includes a
    buffer begun by a fragment that was not a start, receive timeouts change
    nothing at all: such a buffer is never expired. *)
Theorem stalled_stream_counts_one_drop (save_mjpeg : bool)
    (imdecode : bytes -> bool) (n : nat) (w : World) (t0 : float) :
  start_time (current_frame w) = Some t0 ->
  gtb (clock w (ticks w) - t0)%float FRAME_TIMEOUT = true ->
  main_loop save_mjpeg imdecode (repeat SocketTimeout (S n)) w =
    (repeat None (S n),
     set_world w (reset_frame (current_frame w))
       (frames_dropped w + 1) (S (ticks w))) /\
  (forall (v : World) (m : nat),
     start_time (current_frame v) = None ->
     main_loop save_mjpeg imdecode (repeat SocketTimeout m) v
       = (repeat None m, v)) /\
  (forall (v : World) (m : nat),
     frames_dropped v
       <= frames_dropped
            (snd (main_loop save_mjpeg imdecode (repeat SocketTimeout m) v))
       <= frames_dropped v + 1).
Proof.
  intros Hs Ht. split; [|split].
  - cbn [repeat main_loop loop_iteration].
    unfold bind at 1 2. unfold ret at 1.
    rewrite (socket_timeout_drops w t0 Hs Ht).
    unfold bind, ret.
    rewrite socket_timeouts_not_started by reflexivity.
    reflexivity.
  - intros v m Hv. apply socket_timeouts_not_started. exact Hv.
  - intros v m. apply socket_timeouts_drop_once.
Qed.

Lemma stalled_stream_counts_one_drop_witness :
  main_loop false (fun _ => true) (repeat SocketTimeout 3)
    (busy_world late_clock) =
  ([None; None; None],
   set_world (busy_world late_clock) (reset_frame busy_frame) 1 3%nat).
Proof.
  refine (proj1 (stalled_stream_counts_one_drop false (fun _ => true) 2
                   (busy_world late_clock) 0%float eq_refl _)).
  reflexivity.
Defined.

Lemma datagrams_in_cons (r : RecvOutcome) (rs : list RecvOutcome) :
  datagrams_in (r :: rs) = datagrams_in [r] + datagrams_in rs.
Proof.
  unfold datagrams_in. cbn [filter].
  destruct r as [d|]; [destruct (is_truthy d)|]; cbn [length]; lia.
Qed.

Lemma frames_in_cons (x : option bytes) (xs : list (option bytes)) :
  frames_in (x :: xs) = frames_in [x] + frames_in xs.
Proof.
  unfold frames_in. cbn [filter]. destruct x; cbn [length]; lia.
Qed.

Lemma datagrams_in_range (rs : list RecvOutcome) :
  0 <= datagrams_in rs <= Z.of_nat (length rs).
Proof.
  unfold datagrams_in. pose proof (filter_length_le
    (fun r => match r with
              | Datagram d => is_truthy d
              | SocketTimeout => false
              end) rs). lia.
Qed.

(** One iteration of the receive loop and the counters. *)
Lemma loop_iteration_accounting (save_mjpeg : bool)
    (imdecode : bytes -> bool) (r : RecvOutcome) (w : World) :
  fragments_received (snd (loop_iteration save_mjpeg imdecode r w))
    = fragments_received w + datagrams_in [r] /\
  frames_decoded w + frames_in [fst (loop_iteration save_mjpeg imdecode r w)]
    <= frames_decoded (snd (loop_iteration save_mjpeg imdecode r w))
    <= frames_decoded w + datagrams_in [r] /\
  frames_dropped w
    <= frames_dropped (snd (loop_iteration save_mjpeg imdecode r w))
    <= frames_dropped w + 1.
Proof.
  destruct r as [d|]; cbn [loop_iteration].
  - unfold datagrams_in. cbn [filter].
    destruct (is_truthy d) eqn:Hd.
    + destruct (parse_mjpeg_packet d) as [f|] eqn:Hp.
      * rewrite (on_datagram_parsed _ _ d f w Hp).
        rewrite count_received_bump, process_fragment_bump.
        destruct (process_fragment_cases f w)
          as (fs & t & _ & _ & [Hc | [[Hc _] | [Hc _]]]);
          rewrite Hc; cbn [forwarded];
          try (cbn; unfold frames_in; cbn; repeat split; lia).
        destruct (is_truthy (buffer fs ++ data f));
          [|cbn; unfold frames_in; cbn; repeat split; lia].
        destruct (save_mjpeg || imdecode (buffer fs ++ data f));
          cbn; unfold frames_in; cbn; repeat split; lia.
      * unfold on_datagram. rewrite Hd, Hp. cbn.
        unfold frames_in. cbn. repeat split; lia.
    + unfold on_datagram. rewrite Hd. cbn.
      unfold frames_in. cbn. repeat split; lia.
  - unfold on_socket_timeout, reset_state, datagrams_in, frames_in.
    unfold bind, ret, get_frame_state, time_time, count_drop,
      set_frame_state.
    destruct (start_time (current_frame w)) as [t0|]; cbn;
      [destruct (gtb (clock w (ticks w) - t0)%float FRAME_TIMEOUT); cbn|];
      repeat split; lia.
Qed.

(** X13.  Over any run of the receive loop: the count of received fragments
    grows by the number of datagrams that are not empty; the count of
    decoded frames grows by no more than that and by no less than the
    number of frames passed on; the count of drops grows by at most one per
    iteration; no counter goes down. *)
Theorem main_loop_accounting (save_mjpeg : bool) (imdecode : bytes -> bool)
    (rs : list RecvOutcome) (w : World) :
  fragments_received (snd (main_loop save_mjpeg imdecode rs w))
    = fragments_received w + datagrams_in rs /\
  frames_decoded w + frames_in (fst (main_loop save_mjpeg imdecode rs w))
    <= frames_decoded (snd (main_loop save_mjpeg imdecode rs w))
    <= frames_decoded w + datagrams_in rs /\
  frames_dropped w
    <= frames_dropped (snd (main_loop save_mjpeg imdecode rs w))
    <= frames_dropped w + Z.of_nat (length rs).
Proof.
  revert w. induction rs as [|r rs IH]; intros w.
  - cbn. unfold frames_in, datagrams_in. cbn. lia.
  - cbn [main_loop]. unfold bind, ret.
    pose proof (loop_iteration_accounting save_mjpeg imdecode r w) as H1.
    destruct (loop_iteration save_mjpeg imdecode r w) as [x w1].
    cbn [fst snd] in H1.
    specialize (IH w1).
    destruct (main_loop save_mjpeg imdecode rs w1) as [xs w2].
    cbn [fst snd] in IH |- *.
    rewrite frames_in_cons, datagrams_in_cons.
    cbn [length]. rewrite Nat2Z.inj_succ. lia.
Qed.

Lemma bump_bump (w : World) (r d r' d' : Z) :
  bump (bump w r d) r' d' = bump w (r + r') (d + d').
Proof.
  unfold bump. cbn. f_equal; lia.
Qed.

Lemma process_fragments_bump (fs : list Fragment) (w : World) (r d : Z) :
  process_fragments fs (bump w r d) =
    let (xs, w') := process_fragments fs w in (xs, bump w' r d).
Proof.
  revert w. induction fs as [|f fs IH]; intros w.
  - reflexivity.
  - cbn [process_fragments]. unfold bind, ret.
    rewrite process_fragment_bump.
    destruct (process_fragment f w) as [x w1].
    rewrite IH. destruct (process_fragments fs w1) as [xs w2].
    reflexivity.
Qed.

(** X14.  When every frame is written or decodes, the loop is the parser
    followed by the reassembler: for datagrams that the parser accepts, it
    passes on the frames [process_fragments] returns for the parsed
    fragments, in order and leaving out the empty ones, counts one received
    fragment per datagram and one decoded frame per frame passed on, and
    leaves the state and the drop counter as the reassembler does. *)
Theorem loop_is_parser_then_reassembler (save_mjpeg : bool)
    (imdecode : bytes -> bool) (ds : list bytes) (fs : list Fragment)
    (w : World) :
  (forall jpeg, save_mjpeg || imdecode jpeg = true) ->
  Forall2 (fun d f => parse_mjpeg_packet d = Some f) ds fs ->
  main_loop save_mjpeg imdecode (map Datagram ds) w =
    (map forwarded (fst (process_fragments fs w)),
     bump (snd (process_fragments fs w)) (Z.of_nat (length ds))
       (frames_in (map forwarded (fst (process_fragments fs w))))).
Proof.
  intros Hok Hall. revert w.
  induction Hall as [|d f ds fs Hp Hall IH]; intros w.
  - cbn. unfold ret, bump, frames_in. cbn. destruct w. cbn.
    f_equal. f_equal; lia.
  - cbn [map main_loop loop_iteration process_fragments]. unfold bind, ret.
    rewrite (on_datagram_parsed _ _ d f w Hp).
    rewrite count_received_bump, process_fragment_bump.
    destruct (process_fragment f w) as [x w1].
    assert (Hstep :
      match forwarded x with
      | Some jpeg =>
          if save_mjpeg || imdecode jpeg
          then (Some jpeg, snd (count_decoded (bump w1 1 0)))
          else (None, snd (count_drop (snd (count_decoded (bump w1 1 0)))))
      | None => (None, bump w1 1 0)
      end = (forwarded x, bump w1 1 (frames_in [forwarded x]))).
    { destruct (forwarded x) as [jpeg|].
      - rewrite Hok. unfold bump, count_decoded, frames_in. cbn.
        f_equal. f_equal; lia.
      - reflexivity. }
    rewrite Hstep, IH, process_fragments_bump.
    destruct (process_fragments fs w1) as [xs w2].
    cbn [fst snd map length]. rewrite bump_bump.
    rewrite (frames_in_cons (forwarded x) (map forwarded xs)),
      Nat2Z.inj_succ.
    f_equal. f_equal; lia.
Qed.

Lemma loop_is_parser_then_reassembler_witness :
  main_loop true (fun _ => false)
    [Datagram datagram_ab; Datagram datagram_cd; Datagram datagram_ef]
    (initial_world fast_clock) =
  ([None; None; Some (ab ++ cd ++ ef)],
   {| current_frame :=
        {| st_id := Some 5; st_size := Some 6; buffer := [];
           expected_frag := 0; start_time := None |};
      frames_decoded := 1; frames_dropped := 0; fragments_received := 3;
      clock := fast_clock; ticks := 4%nat |}).
Proof.
  refine (loop_is_parser_then_reassembler true (fun _ => false)
            [datagram_ab; datagram_cd; datagram_ef]
            [mkFragment 1 5 6 0 ab; mkFragment 0 5 6 1 cd;
             mkFragment 2 5 6 2 ef]
            (initial_world fast_clock) _ _).
  - intros jpeg. reflexivity.
  - repeat constructor.
Defined.

(* ------------------------------------------------------------------ *)
(** ** The event channel: requests and their counter *)

Lemma land_0xFFFF (x : Z) : Z.land x 0xFFFF = x mod 65536.
Proof.
  change 0xFFFF with (Z.ones 16). rewrite Z.land_ones by lia. reflexivity.
Qed.

Lemma byte_val_byte_of_Z (z : Z) :
  0 <= z < 256 -> byte_val (byte_of_Z z) = z.
Proof.
  intros Hz. unfold byte_val, byte_of_Z.
  destruct (Byte.of_N (Z.to_N z)) as [b|] eqn:Hb.
  - apply Byte.to_of_N in Hb. rewrite Hb. lia.
  - apply Byte.of_N_None_iff in Hb. lia.
Qed.

(** Two bytes written little-endian read back as the number written. *)
Lemma int_from_to_bytes_2_little (cnt : Z) :
  0 <= cnt < 65536 -> int_from_bytes_little (to_bytes_2_little cnt) = cnt.
Proof.
  intros Hc. unfold to_bytes_2_little. cbn [int_from_bytes_little].
  rewrite !byte_val_byte_of_Z.
  - rewrite (Z.mod_small (cnt / 256)) by
      (split; [apply Z.div_pos; lia | apply Z.div_lt_upper_bound; lia]).
    pose proof (Z.div_mod cnt 256). lia.
  - apply Z.mod_pos_bound. lia.
  - apply Z.mod_pos_bound. lia.
Qed.

(** X15.  Building a request hands out the current counter and moves it on
    by one modulo 65536, so that it stays within two bytes and follows
    65535 with 0; the baseline and the signal are not touched. *)
Theorem request_counter_wraps (s : EventState) :
  snd (fst (build_event_request s)) = _event_request_counter s /\
  _event_request_counter (snd (build_event_request s))
    = (_event_request_counter s + 1) mod 65536 /\
  0 <= _event_request_counter (snd (build_event_request s)) < 65536 /\
  (_event_request_counter s = 65535 ->
   _event_request_counter (snd (build_event_request s)) = 0) /\
  _last_server_event_counter (snd (build_event_request s))
    = _last_server_event_counter s /\
  event_signal (snd (build_event_request s)) = event_signal s.
Proof.
  unfold build_event_request.
  cbn [fst snd _event_request_counter _last_server_event_counter
       event_signal].
  rewrite land_0xFFFF.
  repeat split.
  - apply Z.mod_pos_bound. lia.
  - apply Z.mod_pos_bound. lia.
  - intros ->. reflexivity.
Qed.

(** X16.  A request is 18 bytes: the prefix [SETCMD], the counter handed out
    in two bytes that read back little-endian as that counter, and the ten
    fixed bytes. *)
Theorem request_carries_its_counter (s : EventState) :
  0 <= _event_request_counter s < 65536 ->
  length (fst (fst (build_event_request s))) = 18%nat /\
  slice 0 6 (fst (fst (build_event_request s))) = EVENT_REQUEST_PREFIX /\
  int_from_bytes_little (slice 6 8 (fst (fst (build_event_request s))))
    = snd (fst (build_event_request s)) /\
  slice 8 18 (fst (fst (build_event_request s))) = EVENT_REQUEST_TAIL.
Proof.
  intros Hc. unfold build_event_request. cbn [fst snd].
  repeat split.
  change (slice 6 8 (EVENT_REQUEST_PREFIX
                       ++ to_bytes_2_little (_event_request_counter s)
                       ++ EVENT_REQUEST_TAIL))
    with (to_bytes_2_little (_event_request_counter s)).
  apply int_from_to_bytes_2_little. exact Hc.
Qed.

Lemma request_carries_its_counter_witness :
  int_from_bytes_little
    (slice 6 8
       (fst (fst (build_event_request (mkEventState (Some 100) 513 false)))))
  = 513.
Proof.
  refine (proj1 (proj2 (proj2 (request_carries_its_counter
                                 (mkEventState (Some 100) 513 false) _)))).
  cbn. lia.
Defined.

Lemma iteration_counter (io : NetOutcome) (s : EventState) :
  _event_request_counter (snd (event_listener_iteration io s))
    = (_event_request_counter s + 1) mod 65536.
Proof.
  unfold event_listener_iteration, build_event_request.
  cbn [_last_server_event_counter _event_request_counter event_signal].
  rewrite <- land_0xFFFF.
  destruct io as [| |d]; try reflexivity.
  destruct (is_truthy d); [|reflexivity].
  destruct (parse_event_packet _ _ _). reflexivity.
Qed.

Lemma iteration_keeps_signal (io : NetOutcome) (s : EventState) :
  event_signal s = true ->
  event_signal (snd (event_listener_iteration io s)) = true.
Proof.
  intros Hs. unfold event_listener_iteration, build_event_request.
  cbn [_last_server_event_counter _event_request_counter event_signal].
  destruct io as [| |d]; try exact Hs.
  destruct (is_truthy d); [|exact Hs].
  destruct (parse_event_packet _ _ _) as [[|] l]; [reflexivity|exact Hs].
Qed.

Lemma run_counter (ios : list NetOutcome) :
  forall s : EventState,
    0 <= _event_request_counter s < 65536 ->
    _event_request_counter (snd (event_listener_run ios s))
      = (_event_request_counter s + Z.of_nat (length ios)) mod 65536.
Proof.
  induction ios as [|io ios IH]; intros s Hc.
  - cbn. rewrite Z.add_0_r, Z.mod_small by lia. reflexivity.
  - cbn [event_listener_run length].
    pose proof (iteration_counter io s) as H1.
    destruct (event_listener_iteration io s) as [req s1]. cbn [snd] in H1.
    assert (Hc1 : 0 <= _event_request_counter s1 < 65536)
      by (rewrite H1; apply Z.mod_pos_bound; lia).
    specialize (IH s1 Hc1).
    destruct (event_listener_run ios s1) as [reqs s2]. cbn [snd] in IH |- *.
    rewrite IH, H1, Z.add_mod_idemp_l by lia.
    f_equal. lia.
Qed.

(** X17.  Whatever the network does, a failed send included, each
    iteration of the listener uses up one request counter: after a run the
    counter is the sum of where it was and the number of iterations, modulo
    65536; and the listener never takes back a signal that is set. *)
Theorem listener_run_counter_and_signal (ios : list NetOutcome)
    (s : EventState) :
  0 <= _event_request_counter s < 65536 ->
  _event_request_counter (snd (event_listener_run ios s))
    = (_event_request_counter s + Z.of_nat (length ios)) mod 65536 /\
  (event_signal s = true ->
   event_signal (snd (event_listener_run ios s)) = true).
Proof.
  intros Hc. split; [apply run_counter; exact Hc|].
  clear Hc. revert s. induction ios as [|io ios IH]; intros s Hs.
  - exact Hs.
  - cbn [event_listener_run].
    pose proof (iteration_keeps_signal io s Hs) as H1.
    destruct (event_listener_iteration io s) as [req s1]. cbn [snd] in H1.
    specialize (IH s1 H1).
    destruct (event_listener_run ios s1) as [reqs s2]. exact IH.
Qed.

Lemma listener_run_counter_and_signal_witness :
  _event_request_counter
    (snd (event_listener_run [SendFailed; RecvTimeout; Received (response 1 7)]
            (mkEventState None 65534 true))) = 1 /\
  event_signal
    (snd (event_listener_run [SendFailed; RecvTimeout; Received (response 1 7)]
            (mkEventState None 65534 true))) = true.
Proof.
  destruct (listener_run_counter_and_signal
              [SendFailed; RecvTimeout; Received (response 1 7)]
              (mkEventState None 65534 true)) as (H2 & H3).
  - cbn. lia.
  - split; [exact H2 | exact (H3 eq_refl)].
Defined.

(* ------------------------------------------------------------------ *)
(** ** The event channel: responses *)

(** X18.  A response to a request that has been superseded is ignored: if a
    datagram answers the request the listener is about to send, then after
    any number of further iterations from 1 to 65535 it no longer passes
    the counter check, and receiving it changes neither the baseline nor
    the signal. *)
Theorem superseded_response_is_ignored (d : bytes) (ios : list NetOutcome)
    (s : EventState) :
  valid_response d (_event_request_counter s) ->
  0 < Z.of_nat (length ios) < 65536 ->
  _last_server_event_counter
    (snd (event_listener_iteration (Received d)
            (snd (event_listener_run ios s))))
    = _last_server_event_counter (snd (event_listener_run ios s)) /\
  event_signal
    (snd (event_listener_iteration (Received d)
            (snd (event_listener_run ios s))))
    = event_signal (snd (event_listener_run ios s)).
Proof.
  intros Hv Hn.
  assert (Hc : 0 <= _event_request_counter s < 65536).
  { destruct Hv as (_ & _ & <- & _).
    pose proof (int_from_slice_range 6 8 d) as H.
    change (256 ^ Z.of_nat (8 - 6)) with 65536 in H. exact H. }
  pose proof (run_counter ios s Hc) as Hr.
  set (s1 := snd (event_listener_run ios s)) in *.
  assert (Hne : ~ valid_response d (_event_request_counter s1)).
  { intros (_ & _ & He & _). destruct Hv as (_ & _ & He' & _).
    rewrite He' in He. rewrite <- He in Hr.
    revert Hr. generalize (Z.of_nat (length ios)) Hn.
    generalize (_event_request_counter s) Hc.
    clear. intros c Hc k Hk Hr.
    assert (Hm : (c + k) mod 65536 = c + k
                 \/ (c + k) mod 65536 = c + k - 65536).
    { destruct (Z_lt_le_dec (c + k) 65536).
      - left. apply Z.mod_small. lia.
      - right. replace (c + k) with ((c + k - 65536) + 1 * 65536) at 1 by lia.
        rewrite Z.mod_add by lia. apply Z.mod_small. lia. }
    lia. }
  unfold event_listener_iteration, build_event_request.
  cbn [_last_server_event_counter _event_request_counter event_signal].
  destruct (is_truthy d); [|split; reflexivity].
  rewrite parse_event_packet_invalid by exact Hne.
  split; reflexivity.
Qed.

Lemma superseded_response_is_ignored_witness :
  _last_server_event_counter
    (snd (event_listener_iteration (Received (response 7 101))
            (snd (event_listener_run [RecvTimeout]
                    (mkEventState (Some 100) 7 false)))))
    = Some 100 /\
  event_signal
    (snd (event_listener_iteration (Received (response 7 101))
            (snd (event_listener_run [RecvTimeout]
                    (mkEventState (Some 100) 7 false)))))
    = false.
Proof.
  refine (superseded_response_is_ignored (response 7 101) [RecvTimeout]
            (mkEventState (Some 100) 7 false) _ _).
  - repeat split.
  - cbn. lia.
Defined.

(** X19.  A call reports an event only for a response that passes the four
    checks, while a baseline exists, and with a server counter other than
    that baseline, which it then stores; and since a baseline is only ever
    replaced by a server counter, once it exists it exists for good and
    stays within two bytes. *)
Theorem event_reported_only_on_change (d : bytes) (expected : Z)
    (last b' : option Z) :
  parse_event_packet d expected last = (true, b') ->
  valid_response d expected /\
  b' = Some (server_event_counter d) /\
  (exists l, last = Some l /\ l <> server_event_counter d) /\
  (forall d' e' l',
     0 <= l' < 65536 ->
     exists l'', snd (parse_event_packet d' e' (Some l')) = Some l'' /\
                 0 <= l'' < 65536).
Proof.
  intros H.
  assert (Hrange : forall x, 0 <= server_event_counter x < 65536).
  { intros x. unfold server_event_counter.
    pose proof (int_from_slice_range 18 20 x) as Hx.
    change (256 ^ Z.of_nat (20 - 18)) with 65536 in Hx. exact Hx. }
  assert (Hcases : forall x e, valid_response x e \/ ~ valid_response x e).
  { intros x e. unfold valid_response.
    destruct (Z.eq_dec (len x) 20);
      destruct (list_eq_dec Byte.byte_eq_dec (slice 0 6 x)
                  EVENT_RESPONSE_PREFIX);
      destruct (Z.eq_dec (int_from_bytes_little (slice 6 8 x)) e);
      destruct (list_eq_dec Byte.byte_eq_dec (slice 8 14 x)
                  EVENT_RESPONSE_MIDDLE);
      tauto. }
  destruct (Hcases d expected) as [Hv|Hn];
    [|rewrite parse_event_packet_invalid in H by assumption; discriminate].
  split; [exact Hv|].
  rewrite parse_event_packet_valid in H by assumption.
  destruct last as [l|]; [|discriminate].
  destruct (server_event_counter d =? l) eqn:Hl; [discriminate|].
  injection H as <-. apply Z.eqb_neq in Hl.
  split; [reflexivity|]. split; [exists l; split; [reflexivity|lia]|].
  intros d' e' l' Hl'.
  destruct (Hcases d' e') as [Hv'|Hn'].
  - rewrite parse_event_packet_valid by assumption.
    destruct (server_event_counter d' =? l'); cbn [snd];
      eexists; split; try reflexivity; auto.
  - rewrite parse_event_packet_invalid by assumption. cbn [snd].
    eexists; split; [reflexivity|exact Hl'].
Qed.

Lemma event_reported_only_on_change_witness :
  valid_response (response 9 101) 9 /\
  exists l, Some 100 = Some l /\ l <> server_event_counter (response 9 101).
Proof.
  destruct (event_reported_only_on_change (response 9 101) 9 (Some 100)
              (Some 101) eq_refl) as (H1 & _ & H3 & _).
  split; [exact H1 | exact H3].
Defined.

(** X20.  Bytes 14-17 of a response are not looked at: two responses of the
    same length that agree on bytes 0-13 and from byte 18 on are treated
    alike. *)
Theorem reserved_response_bytes_are_ignored (d d' : bytes) (expected : Z)
    (last : option Z) :
  length d = length d' ->
  firstn 14 d = firstn 14 d' ->
  skipn 18 d = skipn 18 d' ->
  parse_event_packet d expected last = parse_event_packet d' expected last.
Proof.
  intros Hl H14 H18.
  assert (Hs : forall lo hi, (lo <= hi <= 14)%nat ->
                 slice lo hi d = slice lo hi d').
  { intros lo hi H.
    rewrite <- (slice_firstn 14 lo hi d), <- (slice_firstn 14 lo hi d')
      by assumption.
    rewrite H14. reflexivity. }
  assert (Hc : slice 18 20 d = slice 18 20 d').
  { unfold slice. rewrite H18. reflexivity. }
  unfold parse_event_packet, len.
  rewrite Hl, (Hs 0%nat 6%nat), (Hs 6%nat 8%nat), (Hs 8%nat 14%nat), Hc
    by lia.
  reflexivity.
Qed.

Lemma reserved_response_bytes_are_ignored_witness :
  parse_event_packet
    (EVENT_RESPONSE_PREFIX ++ to_bytes_2_little 9 ++ EVENT_RESPONSE_MIDDLE
       ++ [xff; xff; xff; xff] ++ to_bytes_2_little 101)
    9 (Some 100)
  = parse_event_packet (response 9 101) 9 (Some 100).
Proof.
  apply reserved_response_bytes_are_ignored; reflexivity.
Defined.
